(** * phosphor-host-ipmid, apphandler.cpp: version parser, Device ID record
      and GUID byte-order conversion.

    A shallow embedding of [tokenize], [convert_version],
    [ipmi_app_get_device_id], [ipmi_app_get_device_guid] and
    [ipmi_app_get_sys_guid], followed by the properties established
    about them. *)

From Stdlib Require Import ZArith List Bool Ascii String Lia.
Import ListNotations.

Local Open Scope Z_scope.

(* ================================================================== *)
(** ** Implementation-defined parameters of the C++ translation unit  *)
(* ================================================================== *)

(** The source leaves three things to the target platform: whether plain
    [char] is signed ([rev_t::major], [rev_t::minor]), the byte order of
    [int] (the one-byte [memcpy] out of [resp_byte]) and the width of
    [size_t] (the [respLoc] counter). [int] is 32 bits throughout. *)
Record abi : Type := mkAbi {
  char_signed : bool;
  big_endian  : bool;
  lp64        : bool
}.

(** The BMC targets the firmware is built for (32-bit little-endian ARM):
    plain [char] is unsigned there. *)
Definition arm_eabi : abi := mkAbi false false false.
(** A 64-bit x86 build host: plain [char] is signed. *)
Definition x86_64 : abi := mkAbi true false true.

Module CInt.

Definition INT_MIN : Z := - 2 ^ 31.
Definition INT_MAX : Z := 2 ^ 31 - 1.

(** Conversion to [uint8_t]. *)
Definition to_u8 (v : Z) : Z := v mod 2 ^ 8.
(** Conversion to [uint32_t]. *)
Definition to_u32 (v : Z) : Z := v mod 2 ^ 32.
(** Conversion to [int8_t] (two's complement wrap). *)
Definition to_s8 (v : Z) : Z := (v + 2 ^ 7) mod 2 ^ 8 - 2 ^ 7.
(** Conversion of an [int] to plain [char]. *)
Definition to_char (a : abi) (v : Z) : Z :=
  if char_signed a then to_s8 v else to_u8 v.

Definition size_bits (a : abi) : Z := if lp64 a then 64 else 32.
(** Conversion to [size_t]; [respLoc--] at zero wraps to [SIZE_MAX]. *)
Definition to_size_t (a : abi) (v : Z) : Z := v mod 2 ^ size_bits a.

(** The four bytes that [htobe32 v] leaves in memory, first address
    first: most significant byte first on every host. *)
Definition be32_bytes (v : Z) : list Z :=
  [ to_u8 (Z.shiftr v 24); to_u8 (Z.shiftr v 16);
    to_u8 (Z.shiftr v 8);  to_u8 v ].

(** [memcpy (dst, &i, 1)] for an [int i]: the byte at the lowest
    address of [i]. *)
Definition first_byte_of_int (a : abi) (i : Z) : Z :=
  if big_endian a then to_u8 (Z.shiftr i 24) else to_u8 i.

End CInt.

(* ================================================================== *)
(** ** Strings                                                         *)
(* ================================================================== *)

Module Str.

Definition str := list ascii.

(** String literals of the source. *)
Definition lit (s : string) : str := list_ascii_of_string s.

Definition NUL : ascii := Ascii.zero.

(** What a [const char *] shows of a buffer: the characters before the
    first NUL ([std::string s(p)], [x.c_str ()] handed to a C routine). *)
Fixpoint c_str (s : str) : str :=
  match s with
  | [] => []
  | c :: r => if Ascii.eqb c NUL then [] else c :: c_str r
  end.

Definition mem (c : ascii) (set : str) : bool :=
  existsb (Ascii.eqb c) set.

(** [s.find_first_of (set)]: index of the first character of [s] that
    belongs to [set], [None] for [npos]. *)
Fixpoint find_first_of (set : str) (s : str) : option nat :=
  match s with
  | [] => None
  | c :: r =>
      if mem c set then Some O
      else option_map S (find_first_of set r)
  end.

(** [s.substr (pos)] for [pos <= s.length ()]. *)
Definition substr_from (pos : nat) (s : str) : str := skipn pos s.
(** [s.substr (pos, n)] for [pos <= s.length ()]. *)
Definition substr (pos n : nat) (s : str) : str := firstn n (skipn pos s).

Fixpoint prefixb (p s : str) : bool :=
  match p, s with
  | [], _ => true
  | _ :: _, [] => false
  | a :: p', b :: s' => Ascii.eqb a b && prefixb p' s'
  end.

(** [s.find (needle) != npos]. *)
Fixpoint contains (needle s : str) : bool :=
  prefixb needle s ||
  match s with
  | [] => false
  | _ :: r => contains needle r
  end.

(** [std::remove (begin, end, c)] followed by [erase]. *)
Definition remove_char (c : ascii) (s : str) : str :=
  filter (fun x => negb (Ascii.eqb x c)) s.

End Str.

Import Str.

(* ================================================================== *)
(** ** tokenize                                                        *)
(* ================================================================== *)

(** The body of the [while (j < str.length ())] loop, entered at a
    position [j] inside the string: [cur] holds, last character first,
    the characters between [j] and the cursor. Reaching a delimiter is
    [k = find_first_of (token, j)], reaching the end is [k = length];
    either way the token is pushed and the loop goes on from [k + 1]
    as long as that is still inside the string. *)
Fixpoint tokenize_from (token : str) (s : str) (cur : str) : list str :=
  match s with
  | [] => [rev cur]
  | c :: r =>
      if mem c token then
        rev cur :: match r with
                   | [] => []
                   | _ :: _ => tokenize_from token r []
                   end
      else tokenize_from token r (c :: cur)
  end.

Definition tokenize (s : str) (token : str) : list str :=
  match s with
  | [] => []
  | _ :: _ => tokenize_from token s []
  end.

(* ================================================================== *)
(** ** strtol, strtoul and std::stoi                                   *)
(* ================================================================== *)

Module Strto.

(** [isspace] in the C locale. *)
Definition isspace (c : ascii) : bool :=
  let n := nat_of_ascii c in
  (Nat.eqb n 32 || (Nat.leb 9 n && Nat.leb n 13))%bool.

(** Value of a character as a digit, any base up to 36. *)
Definition digit_of (c : ascii) : option Z :=
  let n := Z.of_nat (nat_of_ascii c) in
  if (48 <=? n) && (n <=? 57) then Some (n - 48)
  else if (97 <=? n) && (n <=? 122) then Some (n - 97 + 10)
  else if (65 <=? n) && (n <=? 90) then Some (n - 65 + 10)
  else None.

Definition digit_in (base : Z) (c : ascii) : option Z :=
  match digit_of c with
  | Some d => if d <? base then Some d else None
  | None => None
  end.

(** The longest run of digits of [base] at the front of [s], read
    most significant first on top of [acc]; the count of digits used. *)
Fixpoint digits (base : Z) (s : str) (acc : Z) (n : nat) : Z * nat :=
  match s with
  | [] => (acc, n)
  | c :: r =>
      match digit_in base c with
      | Some d => digits base r (acc * base + d) (S n)
      | None => (acc, n)
      end
  end.

Fixpoint skip_space (s : str) : str :=
  match s with
  | c :: r => if isspace c then skip_space r else s
  | [] => []
  end.

Definition is_x (c : ascii) : bool :=
  (Ascii.eqb c "x" || Ascii.eqb c "X")%bool.

(** The subject sequence of [strtol]/[strtoul]: white space, an
    optional sign, for base 16 an optional [0x], then digits. [None]
    when no conversion is performed; otherwise the exact mathematical
    value. A [0x] that is followed by no hexadecimal digit converts
    the [0] alone. *)
Definition subject (base : Z) (s : str) : option Z :=
  let s1 := skip_space s in
  let '(neg, s2) :=
    match s1 with
    | c :: r =>
        if Ascii.eqb c "-" then (true, r)
        else if Ascii.eqb c "+" then (false, r)
        else (false, s1)
    | [] => (false, s1)
    end in
  let sign (v : Z) := if neg then - v else v in
  let plain :=
    match digits base s2 0 O with
    | (_, O) => None
    | (v, S _) => Some (sign v)
    end in
  match s2 with
  | z :: x :: r =>
      if (base =? 16) && Ascii.eqb z "0" && is_x x then
        match digits base r 0 O with
        | (_, O) => Some 0
        | (v, S _) => Some (sign v)
        end
      else plain
  | _ => plain
  end.

Inductive stoi_exn : Type := invalid_argument | out_of_range.

Inductive stoi_result : Type :=
| StoiOk (v : Z)
| StoiThrow (e : stoi_exn).

(** [std::stoi (s, 0, base)]: [strtol] on [s.c_str ()]; no conversion
    throws [std::invalid_argument], a value that does not fit [int]
    (or overflowed [long]) throws [std::out_of_range]. *)
Definition stoi (s : str) (base : Z) : stoi_result :=
  match subject base (c_str s) with
  | None => StoiThrow invalid_argument
  | Some v =>
      if (CInt.INT_MIN <=? v) && (v <=? CInt.INT_MAX) then StoiOk v
      else StoiThrow out_of_range
  end.

(** [strtoul (s, NULL, base)] for the inputs of at most two characters
    it is given here: no conversion yields 0; nothing overflows. A
    negative subject is negated in the unsigned type; only the value
    modulo 2^32 survives the conversion to [int]. *)
Definition strtoul_int (s : str) (base : Z) : Z :=
  match subject base (c_str s) with
  | None => 0
  | Some v => (v + 2 ^ 31) mod 2 ^ 32 - 2 ^ 31
  end.

End Strto.

Import Strto.

(* ================================================================== *)
(** ** convert_version                                                 *)
(* ================================================================== *)

Module Version.

(** [rev_t]. The anonymous union is kept as its four bytes
    [aux[0..3]]; a store to [aux32] rewrites all four. *)
Record rev_t : Type := mkRev {
  major : Z;
  minor : Z;
  aux0 : Z; aux1 : Z; aux2 : Z; aux3 : Z
}.

Definition aux (r : rev_t) : list Z := [aux0 r; aux1 r; aux2 r; aux3 r].

(** [*rev = {0}]. *)
Definition rev_zero : rev_t := mkRev 0 0 0 0 0 0.

Definition TOKEN_MAJOR : nat := 0.
Definition TOKEN_MINOR : nat := 1.
Definition TOKEN_MINOR_REL : nat := 1.
Definition TOKEN_MINOR_PATCH : nat := 2.
Definition TOKEN_HASH : nat := 3.
Definition AUX_RELEASE_SHIFT : Z := 8.
Definition AUX_HASH_SHIFT : Z := AUX_RELEASE_SHIFT.
Definition AUX_MAX_RELEASE : Z := 0x999999.
Definition AUX_HASH_LEN : nat := 6.
Definition AUX_REL_PATCH_SHIFT : Z := 1.
Definition AUX_MAX_PATCH : Z := 127.
Definition AUX_DIRTY_SHIFT : Z := 0.
Definition BCD_BASE : Z := 16.

(** The locals of [convert_version] that outlive a statement: the
    record behind [rev] and [has_release]. *)
Record locals : Type := mkLocals {
  rev : rev_t;
  has_release : bool
}.

(** How a call leaves: by [return rc], or by an exception of
    [std::stoi] that nothing inside the function catches. Either way
    the caller's [rev_t] holds whatever was stored so far. *)
Inductive outcome : Type :=
| Returned (rc : Z) (l : locals)
| Threw (e : stoi_exn) (l : locals).

(** Statements: they read and write the locals and may throw. *)
Inductive res (A : Type) : Type :=
| Val (x : A) (l : locals)
| Exn (e : stoi_exn) (l : locals).
Arguments Val {A} x l.
Arguments Exn {A} e l.

Definition stmt (A : Type) : Type := locals -> res A.

Definition ret {A} (x : A) : stmt A := fun l => Val x l.
Definition bind {A B} (m : stmt A) (k : A -> stmt B) : stmt B :=
  fun l => match m l with
           | Val x l' => k x l'
           | Exn e l' => Exn e l'
           end.
Definition skip : stmt unit := ret tt.

Notation "x <- m ;; k" := (bind m (fun x => k))
  (at level 61, m at next level, right associativity).
Notation "m ;;; k" := (bind m (fun _ => k))
  (at level 61, right associativity).

Definition call_stoi (s : str) (base : Z) : stmt Z :=
  fun l => match stoi s base with
           | StoiOk v => Val v l
           | StoiThrow e => Exn e l
           end.

Definition upd_rev (f : rev_t -> rev_t) : stmt unit :=
  fun l => Val tt (mkLocals (f (rev l)) (has_release l)).

Definition set_major (v : Z) : stmt unit :=
  upd_rev (fun r => mkRev v (minor r) (aux0 r) (aux1 r) (aux2 r) (aux3 r)).
Definition set_minor (v : Z) : stmt unit :=
  upd_rev (fun r => mkRev (major r) v (aux0 r) (aux1 r) (aux2 r) (aux3 r)).
(** [rev->aux32 = htobe32 (v)]. *)
Definition set_aux32_be (v : Z) : stmt unit :=
  upd_rev (fun r =>
    mkRev (major r) (minor r)
          (CInt.to_u8 (Z.shiftr v 24)) (CInt.to_u8 (Z.shiftr v 16))
          (CInt.to_u8 (Z.shiftr v 8)) (CInt.to_u8 v)).
(** [rev->aux[3] = v]. *)
Definition set_aux3 (v : Z) : stmt unit :=
  upd_rev (fun r => mkRev (major r) (minor r) (aux0 r) (aux1 r) (aux2 r) v).
Definition get_aux3 : stmt Z := fun l => Val (aux3 (rev l)) l.
Definition set_has_release (b : bool) : stmt unit :=
  fun l => Val tt (mkLocals (rev l) b).
Definition get_has_release : stmt bool := fun l => Val (has_release l) l.

Definition size (ts : list str) : nat := List.length ts.
(** [tokens[i]] for [i < tokens.size ()]. *)
Definition at_ (ts : list str) (i : nat) : str := nth i ts [].

(** The scan [for (i = TOKEN_HASH; i < tokens.size (); ++i)] over the
    tokens from [TOKEN_HASH] on: [hashstr] when the loop is left.
    [tokens[i][0]] of an empty token is the terminating NUL. *)
Fixpoint scan_hash (ts : list str) : str :=
  match ts with
  | [] => []
  | t :: r =>
      match t with
      | c :: _ =>
          if Ascii.eqb "g" c then substr 1 AUX_HASH_LEN t
          else scan_hash r
      | [] => scan_hash r
      end
  end.

Definition b2z (b : bool) : Z := if b then 1 else 0.

Definition parse_major (a : abi) (tokens : list str) : stmt unit :=
  match tokens with
  | [] => skip
  | _ :: _ =>
      v <- call_stoi (at_ tokens TOKEN_MAJOR) BCD_BASE ;;
      set_major (CInt.to_char a v)
  end.

Definition parse_release (minortok : list str) : stmt unit :=
  if Nat.ltb TOKEN_MINOR_REL (size minortok) then
    rel <- call_stoi (at_ minortok TOKEN_MINOR_REL) BCD_BASE ;;
    let release :=
      CInt.to_u32 (if rel >? AUX_MAX_RELEASE then AUX_MAX_RELEASE else rel) in
    set_aux32_be (CInt.to_u32 (Z.shiftl release AUX_RELEASE_SHIFT)) ;;;
    set_has_release true
  else skip.

Definition parse_patch (minortok : list str) : stmt unit :=
  if Nat.ltb TOKEN_MINOR_PATCH (size minortok) then
    pl <- call_stoi (at_ minortok TOKEN_MINOR_PATCH) 10 ;;
    let patchlevel :=
      CInt.to_u8 (if pl >? AUX_MAX_PATCH then AUX_MAX_PATCH else pl) in
    set_aux3 (CInt.to_u8 (Z.shiftl patchlevel AUX_REL_PATCH_SHIFT))
  else skip.

Definition parse_minor (a : abi) (tokens : list str) : stmt unit :=
  if Nat.ltb TOKEN_MINOR (size tokens) then
    v <- call_stoi (at_ tokens TOKEN_MINOR) BCD_BASE ;;
    set_minor (CInt.to_char a v) ;;;
    let minortok := tokenize (at_ tokens TOKEN_MINOR) (lit "rp") in
    parse_release minortok ;;;
    parse_patch minortok
  else skip.

Definition parse_hash (tokens : list str) : stmt unit :=
  hr <- get_has_release ;;
  if negb hr && Nat.ltb TOKEN_HASH (size tokens) then
    let hashstr := scan_hash (skipn TOKEN_HASH tokens) in
    h <- call_stoi hashstr 16 ;;
    let hash := CInt.to_u32 h in
    set_aux32_be (CInt.to_u32 (Z.shiftl hash AUX_HASH_SHIFT))
  else skip.

Definition mark_dirty (dirty : bool) : stmt unit :=
  b <- get_aux3 ;;
  set_aux3 (CInt.to_u8 (Z.lor b (Z.shiftl (b2z dirty) AUX_DIRTY_SHIFT))).

(** [s] after the optional cut at the first ['v']. *)
Definition cut_v (s : str) : str :=
  match find_first_of (lit "v") s with
  | Some location => substr_from (location + 1) s
  | None => s
  end.

Definition convert_version (a : abi) (p : str) : outcome :=
  let l0 := mkLocals rev_zero false in
  let s := cut_v (c_str p) in
  match s with
  | [] => Returned (-1) l0
  | _ :: _ =>
      let dirty := contains (lit "dirty") s in
      let tokens := tokenize s (lit ".-") in
      match (parse_major a tokens ;;;
             parse_minor a tokens ;;;
             parse_hash tokens ;;;
             mark_dirty dirty) l0 with
      | Val _ l => Returned 0 l
      | Exn e l => Threw e l
      end
  end.

End Version.

(* ================================================================== *)
(** ** ipmi_app_get_device_id                                          *)
(* ================================================================== *)

(** Completion codes the handlers of this file return. *)
Inductive ipmi_ret_t : Type :=
| IPMI_CC_OK
| IPMI_CC_RESPONSE_ERROR
| IPMI_CC_UNSPECIFIED_ERROR.

Module DeviceId.

(** [ipmi_device_id_t], a packed struct of 15 bytes. *)
Record ipmi_device_id_t : Type := mkDevId {
  id : Z;
  revision : Z;
  fw0 : Z;                    (* fw[0] *)
  fw1 : Z;                    (* fw[1] *)
  ipmi_ver : Z;
  addn_dev_support : Z;
  manuf_id : list Z;          (* 3 bytes *)
  prod_id : list Z;           (* 2 bytes *)
  aux : list Z                (* 4 bytes *)
}.

(** The bytes [memcpy (response, &dev_id, sizeof (dev_id))] copies. *)
Definition wire (d : ipmi_device_id_t) : list Z :=
  [id d; revision d; fw0 d; fw1 d; ipmi_ver d; addn_dev_support d]
    ++ manuf_id d ++ prod_id d ++ aux d.

(** The function-local statics. *)
Record statics : Type := mkStatics {
  dev_id : ipmi_device_id_t;
  dev_id_initialized : bool
}.

(** [static ipmi_device_id_t dev_id{}] and
    [static bool dev_id_initialized = false] at program start. *)
Definition statics_init : statics :=
  mkStatics (mkDevId 0 0 0 0 0 0 [0; 0; 0] [0; 0] [0; 0; 0; 0]) false.

(** What [data.value (key, 0)] yields for the six keys, as [int]. *)
Record dev_id_json : Type := mkJson {
  j_id : Z;
  j_revision : Z;
  j_addn_dev_support : Z;
  j_manuf_id : Z;
  j_prod_id : Z;
  j_aux : Z
}.

(** /usr/share/ipmi-providers/dev_id.json as the handler finds it. *)
Inductive dev_id_file : Type :=
| NotOpen                       (* !dev_id_file.is_open () *)
| Discarded                     (* data.is_discarded () *)
| Parsed (data : dev_id_json).

(** What the collaborators answer during one call.
    [active_version = None]: [getActiveSoftwareVersionInfo] throws.
    [bmc_ready = None]: [getCurrentBmcState] throws. *)
Record world : Type := mkWorld {
  active_version : option str;
  json_file : dev_id_file;
  bmc_ready : option bool
}.

(** How a call leaves. *)
Inductive reply : Type :=
| Responds (rc : ipmi_ret_t) (response : ipmi_device_id_t)
| StateSourceThrows.

Definition IPMI_DEVID_STATE_SHIFT : Z := 7.
Definition IPMI_DEVID_FW1_MASK : Z := Z.lnot (Z.shiftl 1 IPMI_DEVID_STATE_SHIFT).

(** The [try] block: [r] and [rev] after it. An exception of either
    callee is caught and logged, [r] stays -1. *)
Definition try_version (a : abi) (w : world) : Z * Version.rev_t :=
  match active_version w with
  | None => (-1, Version.rev_zero)
  | Some version =>
      match Version.convert_version a version with
      | Version.Returned r l => (r, Version.rev l)
      | Version.Threw _ _ => (-1, Version.rev_zero)
      end
  end.

(** [x & IPMI_DEVID_FW1_MASK] stored in a [uint8_t]. *)
Definition masked (x : Z) : Z := CInt.to_u8 (Z.land x IPMI_DEVID_FW1_MASK).

(** [rev.minor > 99 ? 99 : rev.minor]. *)
Definition clamp_minor (minor : Z) : Z := if minor >? 99 then 99 else minor.

(** [rev.minor % 10 + (rev.minor / 10) * 16], stored in a [uint8_t];
    [%] and [/] truncate towards zero. *)
Definition pack_bcd (minor : Z) : Z :=
  CInt.to_u8 (Z.rem minor 10 + Z.quot minor 10 * 16).

(** The [if (r >= 0)] block. *)
Definition store_revision (r : Z) (rv : Version.rev_t)
    (d : ipmi_device_id_t) : ipmi_device_id_t :=
  if 0 <=? r then
    let f0 := masked (Version.major rv) in
    let minor := clamp_minor (Version.minor rv) in
    let f1 := pack_bcd minor in
    mkDevId (id d) (revision d) f0 f1 (ipmi_ver d) (addn_dev_support d)
            (manuf_id d) (prod_id d) (Version.aux rv)
  else d.

Definition set_ipmi_ver (d : ipmi_device_id_t) : ipmi_device_id_t :=
  mkDevId (id d) (revision d) (fw0 d) (fw1 d) 2 (addn_dev_support d)
          (manuf_id d) (prod_id d) (aux d).

(** The [if (!data.is_discarded ())] block. *)
Definition store_json (j : dev_id_json) (d : ipmi_device_id_t)
    : ipmi_device_id_t :=
  let aux32 := CInt.to_u32 (j_aux j) in
  mkDevId (CInt.to_u8 (j_id j)) (CInt.to_u8 (j_revision j))
          (fw0 d) (fw1 d) (ipmi_ver d)
          (CInt.to_u8 (j_addn_dev_support j))
          [ CInt.to_u8 (j_manuf_id j);
            CInt.to_u8 (Z.shiftr (j_manuf_id j) 8);
            CInt.to_u8 (Z.shiftr (j_manuf_id j) 16) ]
          [ CInt.to_u8 (j_prod_id j);
            CInt.to_u8 (Z.shiftr (j_prod_id j) 8) ]
          (if aux32 =? 0 then aux d else CInt.be32_bytes aux32).

(** The [if (!dev_id_initialized)] block: the statics after it and
    the completion code. *)
Definition initialize (a : abi) (w : world) (st : statics)
    : statics * ipmi_ret_t :=
  if dev_id_initialized st then (st, IPMI_CC_OK)
  else
    let '(r, rv) := try_version a w in
    let d := set_ipmi_ver (store_revision r rv (dev_id st)) in
    match json_file w with
    | Parsed data => (mkStatics (store_json data d) true, IPMI_CC_OK)
    | Discarded => (mkStatics d false, IPMI_CC_UNSPECIFIED_ERROR)
    | NotOpen => (mkStatics d false, IPMI_CC_UNSPECIFIED_ERROR)
    end.

Definition set_fw0 (v : Z) (d : ipmi_device_id_t) : ipmi_device_id_t :=
  mkDevId (id d) (revision d) v (fw1 d) (ipmi_ver d) (addn_dev_support d)
          (manuf_id d) (prod_id d) (aux d).

(** [dev_id.fw[0] &= IPMI_DEVID_FW1_MASK]. *)
Definition clear_state_bit (d : ipmi_device_id_t) : ipmi_device_id_t :=
  set_fw0 (masked (fw0 d)) d.

(** [dev_id.fw[0] |= (1 << IPMI_DEVID_STATE_SHIFT)]. *)
Definition set_state_bit (d : ipmi_device_id_t) : ipmi_device_id_t :=
  set_fw0 (CInt.to_u8 (Z.lor (fw0 d) (Z.shiftl 1 IPMI_DEVID_STATE_SHIFT))) d.

Definition ipmi_app_get_device_id (a : abi) (w : world) (st : statics)
    : statics * reply :=
  let '(st1, rc) := initialize a w st in
  let d1 := clear_state_bit (dev_id st1) in
  match bmc_ready w with
  | None => (mkStatics d1 (dev_id_initialized st1), StateSourceThrows)
  | Some ready =>
      let d2 := if negb ready then set_state_bit d1 else d1 in
      (mkStatics d2 (dev_id_initialized st1), Responds rc d2)
  end.

(** A sequence of calls, one [world] each. *)
Fixpoint calls (a : abi) (ws : list world) (st : statics) : statics :=
  match ws with
  | [] => st
  | w :: r => calls a r (fst (ipmi_app_get_device_id a w st))
  end.

(** *** Vocabulary of the statements about the record *)

(** The part of the record the availability bit is not in: every
    field but [fw[0]], and [fw[0]] without its bit 7. *)
Definition static_part (d : ipmi_device_id_t) : ipmi_device_id_t :=
  set_fw0 (Z.land (fw0 d) 127) d.

(** Two records that agree everywhere except, possibly, in bit 7 of
    [fw[0]]. *)
Definition same_but_state_bit (d1 d2 : ipmi_device_id_t) : Prop :=
  id d1 = id d2 /\ revision d1 = revision d2 /\ fw1 d1 = fw1 d2 /\
  ipmi_ver d1 = ipmi_ver d2 /\ addn_dev_support d1 = addn_dev_support d2 /\
  manuf_id d1 = manuf_id d2 /\ prod_id d1 = prod_id d2 /\ aux d1 = aux d2 /\
  forall i, i <> 7 -> Z.testbit (fw0 d1) i = Z.testbit (fw0 d2) i.

(** [fw[0]] as the last two statements of the handler leave it when
    they find [x] there. *)
Definition patched (ready : bool) (x : Z) : Z :=
  if negb ready
  then CInt.to_u8 (Z.lor (masked x) (Z.shiftl 1 IPMI_DEVID_STATE_SHIFT))
  else masked x.

(** The configuration fields of [d] are those of the JSON values. *)
Definition config_fields_of (data : dev_id_json) (d : ipmi_device_id_t)
    : Prop :=
  id d = j_id data mod 256
  /\ revision d = j_revision data mod 256
  /\ addn_dev_support d = j_addn_dev_support data mod 256
  /\ manuf_id d = [ j_manuf_id data mod 256;
                    (j_manuf_id data / 2 ^ 8) mod 256;
                    (j_manuf_id data / 2 ^ 16) mod 256 ]
  /\ prod_id d = [ j_prod_id data mod 256;
                   (j_prod_id data / 2 ^ 8) mod 256 ].

(** The configuration fields of [d] are those of [d0]. *)
Definition config_fields_kept (d0 d : ipmi_device_id_t) : Prop :=
  id d = id d0 /\ revision d = revision d0
  /\ addn_dev_support d = addn_dev_support d0
  /\ manuf_id d = manuf_id d0 /\ prod_id d = prod_id d0.

(** The firmware revision bytes of [d], bit 7 of [fw[0]] apart, are
    those of the parsed revision [rv]: the major revision, and the
    minor one capped at 99 and packed. *)
Definition firmware_of (rv : Version.rev_t) (d : ipmi_device_id_t) : Prop :=
  Z.land (fw0 d) 127 = Z.land (Version.major rv) 127
  /\ fw1 d
     = (Z.rem (if Version.minor rv >? 99 then 99 else Version.minor rv) 10
        + Z.quot (if Version.minor rv >? 99 then 99 else Version.minor rv) 10
          * 16) mod 256.

(** The firmware revision bytes of [d], bit 7 of [fw[0]] apart, are
    those of [d0]. *)
Definition firmware_kept (d0 d : ipmi_device_id_t) : Prop :=
  Z.land (fw0 d) 127 = Z.land (fw0 d0) 127 /\ fw1 d = fw1 d0.

(** The aux bytes of [d]: those of a non-zero "aux" of the JSON file,
    most significant first, else [fallback]. *)
Definition aux_after (cfg : dev_id_file) (fallback : list Z)
    (d : ipmi_device_id_t) : Prop :=
  aux d
  = match cfg with
    | Parsed data =>
        if j_aux data mod 2 ^ 32 =? 0 then fallback
        else [ (j_aux data mod 2 ^ 32 / 2 ^ 24) mod 256;
               (j_aux data mod 2 ^ 32 / 2 ^ 16) mod 256;
               (j_aux data mod 2 ^ 32 / 2 ^ 8) mod 256;
               (j_aux data mod 2 ^ 32) mod 256 ]
    | _ => fallback
    end.

(** No revision is obtained: the lookup of the active version throws,
    or [convert_version] throws on it or returns -1. *)
Definition no_version (a : abi) (ver : option str) : Prop :=
  ver = None
  \/ (exists text e l,
        ver = Some text /\ Version.convert_version a text = Version.Threw e l)
  \/ (exists text l,
        ver = Some text
        /\ Version.convert_version a text = Version.Returned (-1) l).

(** Reading a packed-BCD byte back: low nibble plus ten times the
    high nibble. *)
Definition unpack_bcd (byte : Z) : Z :=
  Z.land byte 0xF + Z.shiftr byte 4 * 10.

End DeviceId.

(* ================================================================== *)
(** ** ipmi_app_get_device_guid and ipmi_app_get_sys_guid             *)
(* ================================================================== *)

Module Guid.

Definition bmc_guid_len : Z := 16.
Definition resp_size : Z := 16.

(** A local [uint8_t x[16]] without initialiser: a cell is [None]
    until something is stored in it. *)
Definition buffer : Type := list (option Z).
Definition fresh : buffer := repeat None 16.

(** [x[i] = v] for [i] inside the array. *)
Fixpoint store (i : nat) (v : Z) (b : buffer) : buffer :=
  match b, i with
  | [], _ => []
  | _ :: r, O => Some v :: r
  | c :: r, S j => c :: store j v r
  end.

Definition in_bounds (i : Z) : bool := (0 <=? i) && (i <? 16).

(** How a copy loop is left. *)
Inductive loop_end : Type :=
| Finished (resp_loc : Z) (b : buffer)
| Throws (e : stoi_exn)
| WritesOutside (index : Z).       (* a store outside the array *)

(** How a handler is left. *)
Inductive outcome : Type :=
| Sent (rc : ipmi_ret_t) (data : buffer)   (* [*data_len = length data] *)
| Failed (rc : ipmi_ret_t)                 (* [return rc], nothing written *)
| Escapes (e : stoi_exn)                   (* exception leaves the handler *)
| OutOfBounds (index : Z).                 (* a store outside the array *)

(** *** System GUID *)

(** The [for] loop of [ipmi_app_get_sys_guid]; [s] is
    [guidProp.substr (i)]. [i < guidPropLen] is [s] not being empty;
    [respLoc >= 0] compares a [size_t]. *)
Fixpoint sys_copy (a : abi) (s : str) (respLoc : Z) (b : buffer)
    : loop_end :=
  match s with
  | [] => Finished respLoc b
  | _ :: t =>
      if 0 <=? respLoc then
        match stoi (substr 0 2 s) 16 with
        | StoiThrow e => Throws e
        | StoiOk v =>
            if in_bounds respLoc then
              let b' := store (Z.to_nat respLoc) (CInt.to_u8 v) b in
              let respLoc' := CInt.to_size_t a (respLoc - 1) in
              match t with
              | [] => Finished respLoc' b'
              | _ :: t2 => sys_copy a t2 respLoc' b'
              end
            else WritesOutside respLoc
        end
      else Finished respLoc b
  end.

(** [prop = None]: reading the UUID property throws [InternalFailure]. *)
Definition ipmi_app_get_sys_guid (a : abi) (prop : option str) : outcome :=
  match prop with
  | None => Failed IPMI_CC_UNSPECIFIED_ERROR
  | Some value =>
      let guidProp := remove_char "-" value in
      let guidPropLen := Z.of_nat (List.length guidProp) in
      if (guidPropLen <=? 0) || negb (guidPropLen / 2 =? bmc_guid_len) then
        Failed IPMI_CC_RESPONSE_ERROR
      else
        match sys_copy a guidProp (bmc_guid_len - 1) fresh with
        | Finished _ b => Sent IPMI_CC_OK b
        | Throws e => Escapes e
        | WritesOutside i => OutOfBounds i
        end
  end.

(** *** Device GUID *)

(** The successive results of [strtok_r (uuid, "-", &tokptr)],
    [strtok_r (NULL, "-", &tokptr)], ...: the maximal non-empty runs
    of characters outside [delim]. [cur] is the run being read, last
    character first. *)
Fixpoint strtok_from (delim : str) (s : str) (cur : str) : list str :=
  match s with
  | [] => match cur with [] => [] | _ :: _ => [rev cur] end
  | c :: r =>
      if mem c delim then
        match cur with
        | [] => strtok_from delim r []
        | _ :: _ => rev cur :: strtok_from delim r []
        end
      else strtok_from delim r (c :: cur)
  end.

Definition strtok_all (s : str) (delim : str) : list str :=
  strtok_from delim (c_str s) [].

(** The inner [for (i = 0; i < tmp_size; i++)]: one turn for each two
    characters of the octet string; an odd last character is left. *)
Fixpoint octet_copy (a : abi) (id_octet : str) (resp_loc : Z) (b : buffer)
    : loop_end :=
  match id_octet with
  | c1 :: c2 :: t =>
      let resp_byte := strtoul_int [c1; c2] 16 in
      if in_bounds resp_loc then
        octet_copy a t (resp_loc - 1)
          (store (Z.to_nat resp_loc) (CInt.first_byte_of_int a resp_byte) b)
      else WritesOutside resp_loc
  | _ => Finished resp_loc b
  end.

(** The outer [while (id_octet != NULL)]. *)
Fixpoint uuid_copy (a : abi) (octets : list str) (resp_loc : Z) (b : buffer)
    : loop_end :=
  match octets with
  | [] => Finished resp_loc b
  | id_octet :: r =>
      match octet_copy a id_octet resp_loc b with
      | Finished resp_loc' b' => uuid_copy a r resp_loc' b'
      | other => other
      end
  end.

(** What the bus calls leave the handler with. *)
Inductive uuid_source : Type :=
| NoService               (* mapper_get_service fails *)
| GetFails                (* sd_bus_call_method fails *)
| ReadFails               (* sd_bus_message_read fails or uuid is NULL *)
| Uuid (uuid : str).

Definition ipmi_app_get_device_guid (a : abi) (src : uuid_source) : outcome :=
  match src with
  | NoService => Sent IPMI_CC_OK []
  | GetFails => Sent IPMI_CC_UNSPECIFIED_ERROR []
  | ReadFails => Sent IPMI_CC_RESPONSE_ERROR []
  | Uuid uuid =>
      match strtok_all uuid (lit "-") with
      | [] => Sent IPMI_CC_RESPONSE_ERROR []
      | octets =>
          match uuid_copy a octets (resp_size - 1) fresh with
          | Finished _ b => Sent IPMI_CC_OK b
          | Throws e => Escapes e
          | WritesOutside i => OutOfBounds i
          end
      end
  end.

(** *** Vocabulary of the statements about GUID texts *)

(** [isxdigit]. *)
Definition is_hex (c : ascii) : bool :=
  match digit_in 16 c with Some _ => true | None => false end.

Definition hex_val (c : ascii) : Z :=
  match digit_in 16 c with Some d => d | None => 0 end.

(** The byte values of the two-character groups of [s], left to right. *)
Fixpoint byte_pairs (s : str) : list Z :=
  match s with
  | c1 :: c2 :: t => (hex_val c1 * 16 + hex_val c2) :: byte_pairs t
  | _ => []
  end.

(** Number of turns of the device handler's inner loop over all octet
    strings: the sum of the [tmp_size = strlen (id_octet) / 2]. *)
Definition pair_count (octets : list str) : Z :=
  fold_right (fun o n => Z.of_nat (List.length o) / 2 + n) 0 octets.

(** The bytes the device handler's inner loop stores for one octet
    string, in the order it stores them. *)
Fixpoint octet_bytes (a : abi) (id_octet : str) : list Z :=
  match id_octet with
  | c1 :: c2 :: t =>
      CInt.first_byte_of_int a (strtoul_int [c1; c2] 16) :: octet_bytes a t
  | _ => []
  end.

Definition uuid_bytes (a : abi) (octets : list str) : list Z :=
  List.concat (map (octet_bytes a) octets).

(** A GUID text the system handler accepts as well formed: 32
    hexadecimal digits once the hyphens are taken out. *)
Definition guid_text (text : str) : Prop :=
  List.length (remove_char "-" text) = 32%nat
  /\ forallb is_hex (remove_char "-" text) = true.

(** Every hyphen-separated group has an even number of characters, as
    in the 8-4-4-4-12 layout. *)
Definition even_groups (text : str) : Prop :=
  forallb (fun o => Nat.even (List.length o)) (strtok_all text (lit "-"))
  = true.

End Guid.

(* ================================================================== *)
(** ** getActiveSoftwareVersionInfo                                    *)
(* ================================================================== *)

Module Software.

(** What the [try] body reads from one managed object: the [Priority]
    property, whether [Purpose] converts to [VersionPurpose::BMC],
    whether [Activation] converts to [Activations::Active], and the
    [Version] property. *)
Record sw_props : Type := mkProps {
  priority : Z;                 (* uint8_t *)
  is_bmc : bool;
  is_active : bool;
  version : str
}.

(** One element of [objValueTree]. [None]: something in the [try] body
    throws (an interface or a property is missing, a variant holds
    another type, an enumeration string is unknown); the [catch] logs
    it and the loop goes on. All reads precede the stores, so nothing
    is changed in that turn. *)
Definition managed_object : Type := option sw_props.

(** One element of [objectTree] as the outer loop sees it. [None]:
    [ipmi::getService] or [ipmi::getManagedObjects] throws, outside any
    [try]. *)
Definition soft_object : Type := option (list managed_object).

Inductive result : Type :=
| Revision (revision : str)     (* [return revision] *)
| InternalFailure               (* [elog<InternalFailure> ()] *)
| BusFailure.                   (* an exception of a bus helper *)

(** The inner [for (const auto& objIter : objValueTree)]:
    [minPriority], [objectFound] and [revision] when it is left. *)
Fixpoint scan_objects (objs : list managed_object) (minPriority : Z)
    (objectFound : bool) (revision : str) : Z * bool * str :=
  match objs with
  | [] => (minPriority, objectFound, revision)
  | None :: r => scan_objects r minPriority objectFound revision
  | Some o :: r =>
      if is_bmc o && is_active o then
        if priority o <? minPriority
        then scan_objects r (priority o) true (version o)
        else scan_objects r minPriority objectFound revision
      else scan_objects r minPriority objectFound revision
  end.

(** The outer [for (auto& softObject : objectTree)]; [minPriority] is
    declared inside it and starts from 0xFF in every turn. *)
Fixpoint scan_tree (tree : list soft_object) (objectFound : bool)
    (revision : str) : option (bool * str) :=
  match tree with
  | [] => Some (objectFound, revision)
  | None :: _ => None
  | Some objs :: r =>
      let '(_, found, rev') := scan_objects objs 0xFF objectFound revision in
      scan_tree r found rev'
  end.

(** [objectTree = None]: [ipmi::getAllDbusObjects] throws. *)
Definition getActiveSoftwareVersionInfo (objectTree : option (list soft_object))
    : result :=
  match objectTree with
  | None => BusFailure
  | Some [] => InternalFailure
  | Some tree =>
      match scan_tree tree false [] with
      | None => BusFailure
      | Some (objectFound, revision) =>
          if negb objectFound then InternalFailure else Revision revision
      end
  end.

(** An object the [if] inside the [try] lets through. *)
Definition qualifies (o : sw_props) : bool := is_bmc o && is_active o.

(** An object the inner loop selects when it meets it with the given
    [minPriority]. *)
Definition selectable (minPriority : Z) (m : managed_object) : bool :=
  match m with
  | Some o => qualifies o && (priority o <? minPriority)
  | None => false
  end.

(** An object that can be selected at all: it qualifies and its
    priority is below the start value of [minPriority]. *)
Definition eligible (m : managed_object) : bool := selectable 0xFF m.

End Software.

(* ================================================================== *)
(** ** Vocabulary of the statements about tokens and records           *)
(* ================================================================== *)

Module Words.

(** Number of characters of [s] that belong to [token]. *)
Definition count_delim (token s : str) : nat :=
  List.length (filter (fun c => mem c token) s).

(** Whether the last character of [s] belongs to [token]. *)
Fixpoint ends_in (token s : str) : bool :=
  match s with
  | [] => false
  | [c] => mem c token
  | _ :: r => ends_in token r
  end.

(** [s] without the characters of [token]. *)
Definition strip (token s : str) : str :=
  filter (fun c => negb (mem c token)) s.

Definition is_byte (v : Z) : Prop := 0 <= v < 256.

(** A number from its bytes, least significant first. *)
Fixpoint of_le (bytes : list Z) : Z :=
  match bytes with
  | [] => 0
  | b :: r => b + 256 * of_le r
  end.

(** A number from its bytes, most significant first. *)
Definition of_be (bytes : list Z) : Z := of_le (List.rev bytes).

(** A Device ID record whose fields are bytes and whose arrays have
    the sizes of [ipmi_device_id_t]. *)
Definition well_formed (d : DeviceId.ipmi_device_id_t) : Prop :=
  Forall is_byte
    [DeviceId.id d; DeviceId.revision d; DeviceId.fw0 d; DeviceId.fw1 d;
     DeviceId.ipmi_ver d; DeviceId.addn_dev_support d]
  /\ (List.length (DeviceId.manuf_id d) = 3%nat
      /\ Forall is_byte (DeviceId.manuf_id d))
  /\ (List.length (DeviceId.prod_id d) = 2%nat
      /\ Forall is_byte (DeviceId.prod_id d))
  /\ (List.length (DeviceId.aux d) = 4%nat
      /\ Forall is_byte (DeviceId.aux d)).

(** The decimal digit characters. *)
Definition decimal_digits : str := lit "0123456789".

(** A character at which [strtol] in base 16 converts nothing: no
    hexadecimal digit, no white space, no sign. *)
Definition stops_strtol (c : ascii) : bool :=
  negb (Guid.is_hex c) && negb (isspace c)
  && negb (Ascii.eqb c "+") && negb (Ascii.eqb c "-").

End Words.

(* ================================================================== *)
(** ** Concrete inputs used in the statements below                    *)
(* ================================================================== *)

Module Sample.

(** The UUID of the comments in both GUID handlers. *)
Definition uuid : str := lit "61a39523-78f2-11e5-9862-e6402cfc3223".
(** The same with one more digit: 33 digits without the hyphens. *)
Definition uuid_33 : str := lit "61a39523-78f2-11e5-9862-e6402cfc32231".
(** 34 digits without the hyphens. *)
Definition uuid_34 : str := lit "61a39523-78f2-11e5-9862-e6402cfc322311".
(** 33 digits in one group. *)
Definition uuid_33_plain : str := lit "61a3952378f211e59862e6402cfc32231".
(** The bytes of [uuid], last pair first. *)
Definition uuid_wire : Guid.buffer :=
  map Some [0x23; 0x32; 0xfc; 0x2c; 0x40; 0xe6; 0x62; 0x98;
            0xe5; 0x11; 0xf2; 0x78; 0x23; 0x95; 0xa3; 0x61].

(** A first call that finds neither an active version nor the JSON
    file, and a second one that finds both. *)
Definition nothing_found : DeviceId.world :=
  DeviceId.mkWorld None DeviceId.NotOpen (Some true).
Definition all_found : DeviceId.world :=
  DeviceId.mkWorld (Some (lit "v2.2r180608p10-g65edf7d-dirty"))
    (DeviceId.Parsed (DeviceId.mkJson 1 2 3 0x00c0de 0x0102 0))
    (Some true).
Definition after_first_call : DeviceId.statics :=
  fst (DeviceId.ipmi_app_get_device_id arm_eabi nothing_found
         DeviceId.statics_init).
Definition after_second_call : DeviceId.statics :=
  fst (DeviceId.ipmi_app_get_device_id arm_eabi all_found after_first_call).

(** A parsed revision with minor 0x99. *)
Definition rev_1_99 : Version.rev_t := Version.mkRev 1 0x99 0 0 0 0.

(** The managed objects of one service: an active BMC image of
    priority 1, an unreadable object, an inactive image of priority 0
    and an active one of priority 0. *)
Definition service_objects : list Software.managed_object :=
  [Some (Software.mkProps 1 true true (lit "v2.3"));
   None;
   Some (Software.mkProps 0 true false (lit "v2.2"));
   Some (Software.mkProps 0 true true (lit "v2.4"))].

(** The managed objects of another service: one active BMC image of
    priority 200. *)
Definition other_service_objects : list Software.managed_object :=
  [Some (Software.mkProps 200 true true (lit "v1.0"))].

End Sample.

(* ================================================================== *)
(** * Properties                                                       *)
(* ================================================================== *)

(** ** The version parser *)

Section VersionParser.

Import Version.

Variable a : abi.

(** Sanity checks of [tokenize] against hand traces of the loop. *)
Example tokenize_trailing_delimiter :
  tokenize (lit "a-") (lit ".-") = [lit "a"].
Proof. reflexivity. Qed.

Example tokenize_leading_delimiter :
  tokenize (lit "-a") (lit ".-") = [[]; lit "a"].
Proof. reflexivity. Qed.

(** The loop of [tokenize], one turn at a time: the token up to the
    first delimiter (or to the end), then the same from behind it. *)
Lemma tokenize_from_loop (token s cur : str) :
  tokenize_from token s cur
  = match find_first_of token s with
    | None => [List.rev cur ++ s]
    | Some k =>
        (List.rev cur ++ substr 0 k s) :: tokenize (substr_from (k + 1) s) token
    end.
Proof.
  revert cur. induction s as [|c r IH]; intros cur.
  - cbn. rewrite app_nil_r. reflexivity.
  - cbn [tokenize_from find_first_of].
    destruct (mem c token).
    + cbn. rewrite app_nil_r. destruct r; reflexivity.
    + rewrite IH. destruct (find_first_of token r) as [k|]; cbn.
      * rewrite <- app_assoc. reflexivity.
      * rewrite <- app_assoc. reflexivity.
Qed.

Lemma tokenize_loop (token s : str) :
  tokenize s token
  = match s with
    | [] => []
    | _ :: _ =>
        match find_first_of token s with
        | None => [s]
        | Some k => substr 0 k s :: tokenize (substr_from (k + 1) s) token
        end
    end.
Proof.
  destruct s as [|c r]; [reflexivity|].
  unfold tokenize. rewrite tokenize_from_loop. reflexivity.
Qed.

Example tokenize_format2 :
  tokenize (lit "1.99.10-113-g65edf7d-r3-0-g9e4f715-dirty") (lit ".-")
  = map lit ["1"; "99"; "10"; "113"; "g65edf7d"; "r3"; "0"; "g9e4f715";
             "dirty"]%string.
Proof. reflexivity. Qed.

Example stoi_stops_at_first_non_digit :
  stoi (lit "2r180608p10") 16 = StoiOk 2.
Proof. reflexivity. Qed.

Example stoi_empty : stoi [] 16 = StoiThrow invalid_argument.
Proof. reflexivity. Qed.

Example stoi_too_large :
  stoi (lit "123456789") 16 = StoiThrow out_of_range.
Proof. reflexivity. Qed.

Lemma to_char_small (v : Z) : 0 <= v < 128 -> CInt.to_char a v = v.
Proof.
  intros Hv. unfold CInt.to_char, CInt.to_s8, CInt.to_u8.
  destruct (char_signed a).
  - rewrite Z.mod_small; lia.
  - rewrite Z.mod_small; lia.
Qed.

(** The second format of the header comment. *)
Example convert_version_format2 :
  convert_version arm_eabi
    (lit "v1.99.10-113-g65edf7d-r3-0-g9e4f715-dirty")
  = Returned 0 (mkLocals (mkRev 0x01 0x99 0x65 0xed 0xf7 1) false).
Proof. reflexivity. Qed.

Example convert_version_empty :
  convert_version a [] = Returned (-1) (mkLocals rev_zero false)
  /\ convert_version a (lit "v") = Returned (-1) (mkLocals rev_zero false).
Proof. split; reflexivity. Qed.

(** Whatever [convert_version] returns, it is 0 or -1; -1 comes with
    the cleared record. *)
Lemma convert_version_returns (p : str) (rc : Z) (l : locals) :
  convert_version a p = Returned rc l ->
  rc = 0 \/ (rc = -1 /\ l = mkLocals rev_zero false /\ cut_v (c_str p) = []).
Proof.
  unfold convert_version.
  destruct (cut_v (c_str p)) as [|c s] eqn:Hs.
  - intros H. inversion H. right. auto.
  - match goal with
    | |- context [match ?m with Val _ _ => _ | Exn _ _ => _ end] =>
        destruct m
    end; intros H; inversion H. left. reflexivity.
Qed.

End VersionParser.

(** C5. Parsing "v0.6-19-gf363f61-dirty" returns 0 with major 0x00,
    minor 0x06, aux bytes 0..2 equal to 0xf3, 0x63, 0xf6, bit 0 of aux
    byte 3 set, and the release form not selected. *)
Theorem convert_version_format1 :
  forall a : abi,
    exists r : Version.rev_t,
      Version.convert_version a (lit "v0.6-19-gf363f61-dirty")
        = Version.Returned 0 (Version.mkLocals r false)
      /\ Version.major r = 0x00
      /\ Version.minor r = 0x06
      /\ firstn 3 (Version.aux r) = [0xf3; 0x63; 0xf6]
      /\ Z.testbit (Version.aux3 r) 0 = true.
Proof.
  intros [[|] be lp];
    (eexists; split; [vm_compute; reflexivity | repeat split]).
Qed.

(** C6. Parsing "v2.2r180608p10-g65edf7d-dirty" returns 0 with major
    0x02, minor 0x02 and the release form selected: aux bytes 0..2 hold
    the release number 180608 read digit by digit (0x18, 0x06, 0x08),
    bits 1..7 of aux byte 3 hold the patch level 10, bit 0 of aux byte 3
    is the dirty flag, and the hash token g65edf7d leaves no trace. A
    release number above 0x999999 is stored as 0x999999. *)
Theorem convert_version_format3 :
  forall a : abi,
    (exists r : Version.rev_t,
      Version.convert_version a (lit "v2.2r180608p10-g65edf7d-dirty")
        = Version.Returned 0 (Version.mkLocals r true)
      /\ Version.major r = 0x02
      /\ Version.minor r = 0x02
      /\ firstn 3 (Version.aux r) = [0x18; 0x06; 0x08]
      /\ Z.shiftr (Version.aux3 r) 1 = 10
      /\ Z.testbit (Version.aux3 r) 0 = true
      /\ firstn 3 (Version.aux r) <> [0x65; 0xed; 0xf7])
    /\ (exists r : Version.rev_t,
      Version.convert_version a (lit "v2.2rabcdefp10-g65edf7d-dirty")
        = Version.Returned 0 (Version.mkLocals r true)
      /\ firstn 3 (Version.aux r) = [0x99; 0x99; 0x99]).
Proof.
  intros [[|] be lp]; split;
    (eexists; split; [vm_compute; reflexivity | repeat split; discriminate]).
Qed.

(** C2. On "vx" the parser does not return: [std::stoi] throws
    [std::invalid_argument] through it. On "v1.z" it throws after
    having stored the major revision, so the caller's record is left
    half written. *)
Theorem convert_version_throws_on_malformed_token :
  forall a : abi,
    Version.convert_version a (lit "vx")
      = Version.Threw invalid_argument
          (Version.mkLocals Version.rev_zero false)
    /\ Version.convert_version a (lit "v1.z")
      = Version.Threw invalid_argument
          (Version.mkLocals (Version.mkRev 1 0 0 0 0 0) false).
Proof.
  intros [[|] be lp]; split; vm_compute; reflexivity.
Qed.

(** C3. On "v1.99.10-113" (four tokens, release form not selected, no
    token from index 3 on starts with 'g') the parser does not return
    0: [hashstr] stays empty and [std::stoi] throws
    [std::invalid_argument] on it. *)
Theorem convert_version_throws_without_hash_token :
  forall a : abi,
    Version.scan_hash
      (skipn Version.TOKEN_HASH (tokenize (lit "1.99.10-113") (lit ".-")))
      = []
    /\ exists l : Version.locals,
      Version.convert_version a (lit "v1.99.10-113")
        = Version.Threw invalid_argument l
      /\ Version.has_release l = false.
Proof.
  intros [[|] be lp]; (split; [reflexivity|]);
    (eexists; split; [vm_compute; reflexivity | reflexivity]).
Qed.

(** Beyond the one input above: whenever a fourth token exists and the
    scan from [TOKEN_HASH] finds no token starting with 'g', a return of
    0 can only come from the release form; in hash form the call
    throws. *)
Lemma convert_version_needs_hash_token (a : abi) (p : str) (l : Version.locals) :
  let tokens := tokenize (Version.cut_v (c_str p)) (lit ".-") in
  (Version.TOKEN_HASH < Version.size tokens)%nat ->
  Version.scan_hash (skipn Version.TOKEN_HASH tokens) = [] ->
  Version.convert_version a p = Version.Returned 0 l ->
  Version.has_release l = true.
Proof.
  intros tokens Hsize Hscan. unfold Version.convert_version.
  fold tokens.
  destruct (Version.cut_v (c_str p)) as [|c s]; [discriminate|].
  unfold Version.bind.
  destruct (Version.parse_major a tokens _) as [u1 l1|e1 l1]; [|discriminate].
  destruct (Version.parse_minor a tokens l1) as [u2 l2|e2 l2]; [|discriminate].
  unfold Version.parse_hash, Version.bind, Version.get_has_release.
  apply Nat.ltb_lt in Hsize. rewrite Hsize, Hscan.
  destruct (Version.has_release l2) eqn:Hr; simpl.
  - unfold Version.mark_dirty, Version.bind, Version.get_aux3,
      Version.set_aux3, Version.upd_rev, Version.skip, Version.ret.
    simpl. intros H. inversion H. simpl. exact Hr.
  - discriminate.
Qed.

(** ** The Device ID record *)

Section Bits.

Import DeviceId.

Lemma mask_bits (x i : Z) :
  0 <= i ->
  Z.testbit (masked x) i = (i <? 7) && Z.testbit x i.
Proof.
  intros Hi.
  unfold masked, CInt.to_u8, IPMI_DEVID_FW1_MASK, IPMI_DEVID_STATE_SHIFT.
  change (Z.shiftl 1 7) with (2 ^ 7).
  destruct (Z.ltb_spec i 8) as [Hlt|Hge].
  - rewrite Z.mod_pow2_bits_low by lia.
    rewrite Z.land_spec, Z.lnot_spec by lia.
    rewrite Z.pow2_bits_eqb by lia.
    destruct (Z.eqb_spec 7 i) as [E|Hne].
    + subst i. simpl. apply andb_false_r.
    + simpl. rewrite andb_true_r.
      destruct (Z.ltb_spec i 7); [reflexivity | lia].
  - rewrite Z.mod_pow2_bits_high by lia.
    destruct (Z.ltb_spec i 7); [lia | reflexivity].
Qed.

Lemma set_bits (y i : Z) :
  0 <= i ->
  Z.testbit (CInt.to_u8 (Z.lor y (Z.shiftl 1 IPMI_DEVID_STATE_SHIFT))) i
  = (i <? 8) && (Z.testbit y i || (i =? 7)).
Proof.
  intros Hi. unfold CInt.to_u8, IPMI_DEVID_STATE_SHIFT.
  change (Z.shiftl 1 7) with (2 ^ 7).
  destruct (Z.ltb_spec i 8) as [Hlt|Hge].
  - rewrite Z.mod_pow2_bits_low by lia.
    rewrite Z.lor_spec, Z.pow2_bits_eqb by lia.
    rewrite (Z.eqb_sym 7 i). reflexivity.
  - rewrite Z.mod_pow2_bits_high by lia. reflexivity.
Qed.

Lemma patched_bits (ready : bool) (x i : Z) :
  0 <= i ->
  Z.testbit (patched ready x) i
  = if i =? 7 then negb ready else (i <? 7) && Z.testbit x i.
Proof.
  intros Hi. unfold patched. destruct ready; simpl.
  - rewrite mask_bits by lia.
    destruct (Z.eqb_spec i 7) as [E|Hne]; [subst i; reflexivity|reflexivity].
  - rewrite set_bits, mask_bits by lia.
    destruct (Z.eqb_spec i 7) as [E|Hne]; [subst i; reflexivity|].
    rewrite orb_false_r.
    destruct (Z.ltb_spec i 7), (Z.ltb_spec i 8); try lia; reflexivity.
Qed.

Lemma patched_idem (r1 r2 : bool) (x : Z) :
  patched r2 (patched r1 x) = patched r2 x.
Proof.
  apply Z.bits_inj'. intros i Hi.
  rewrite !patched_bits by lia.
  destruct (Z.eqb_spec i 7); [reflexivity|].
  destruct (Z.ltb_spec i 7); reflexivity.
Qed.

Lemma patched_low (ready : bool) (x : Z) :
  Z.land (patched ready x) 127 = Z.land x 127.
Proof.
  apply Z.bits_inj'. intros i Hi.
  rewrite !Z.land_spec, patched_bits by lia.
  change 127 with (Z.ones 7).
  destruct (Z.ltb_spec i 7) as [Hlt|Hge].
  - rewrite Z.ones_spec_low by lia.
    destruct (Z.eqb_spec i 7); [lia | reflexivity].
  - rewrite Z.ones_spec_high by lia. rewrite !andb_false_r. reflexivity.
Qed.

Lemma patched_masked (ready : bool) (x : Z) :
  patched ready (masked x) = patched ready x.
Proof.
  apply Z.bits_inj'. intros i Hi.
  rewrite !patched_bits, mask_bits by lia.
  destruct (Z.eqb_spec i 7); [reflexivity|].
  destruct (Z.ltb_spec i 7); reflexivity.
Qed.

Lemma patched_bits_neg (ready : bool) (x i : Z) :
  i <> 7 -> Z.testbit (patched ready x) i = Z.testbit (masked x) i.
Proof.
  intros Hne. destruct (Z.lt_ge_cases i 0) as [Hneg|Hpos].
  - rewrite !Z.testbit_neg_r by lia. reflexivity.
  - rewrite patched_bits, mask_bits by lia.
    destruct (Z.eqb_spec i 7); [lia | reflexivity].
Qed.

(** The handler, for a state source that answers. *)
Lemma get_device_id_answer (a : abi) (ver : option str) (cfg : dev_id_file)
    (ready : bool) (st : statics) :
  ipmi_app_get_device_id a (mkWorld ver cfg (Some ready)) st
  = let st1 := fst (initialize a (mkWorld ver cfg (Some ready)) st) in
    let rc := snd (initialize a (mkWorld ver cfg (Some ready)) st) in
    let d := set_fw0 (patched ready (fw0 (dev_id st1))) (dev_id st1) in
    (mkStatics d (dev_id_initialized st1), Responds rc d).
Proof.
  unfold ipmi_app_get_device_id.
  destruct (initialize a _ st) as [st1 rc]. simpl.
  unfold patched. destruct ready; reflexivity.
Qed.

(** [initialize] does not look at the state source. *)
Lemma initialize_ignores_readiness (a : abi) (ver : option str)
    (cfg : dev_id_file) (r1 r2 : option bool) (st : statics) :
  initialize a (mkWorld ver cfg r1) st = initialize a (mkWorld ver cfg r2) st.
Proof. reflexivity. Qed.

End Bits.

Section MinorByte.

Import DeviceId.

Lemma clamp_minor_range (m : Z) : 0 <= m -> 0 <= clamp_minor m <= 99.
Proof.
  intros Hm. unfold clamp_minor.
  destruct (Z.gtb_spec m 99); lia.
Qed.

Lemma pack_bcd_digits (c : Z) :
  0 <= c <= 99 -> pack_bcd c = c mod 10 + (c / 10) * 16.
Proof.
  intros Hc. unfold pack_bcd, CInt.to_u8.
  rewrite Z.rem_mod_nonneg, Z.quot_div_nonneg by lia.
  apply Z.mod_small.
  assert (0 <= c mod 10 < 10) by (apply Z.mod_pos_bound; lia).
  assert (0 <= c / 10 < 10)
    by (split; [apply Z.div_pos; lia | apply Z.div_lt_upper_bound; lia]).
  change (2 ^ 8) with 256. lia.
Qed.

Lemma unpack_pack_bcd (c : Z) : 0 <= c <= 99 -> unpack_bcd (pack_bcd c) = c.
Proof.
  intros Hc. rewrite pack_bcd_digits by assumption.
  unfold unpack_bcd.
  change 0xF with (Z.ones 4).
  rewrite Z.land_ones, Z.shiftr_div_pow2 by lia.
  change (2 ^ 4) with 16.
  assert (Hr : 0 <= c mod 10 < 10) by (apply Z.mod_pos_bound; lia).
  rewrite Z.mod_add, Z.div_add by lia.
  rewrite Z.mod_small, (Z.div_small (c mod 10) 16) by lia.
  pose proof (Z.div_mod c 10). lia.
Qed.

(** Where plain [char] is signed the comparison with 99 sees 0x99 as
    -103: nothing is clamped and the stored byte is 0x5d. *)
Remark signed_char_escapes_the_clamp :
  let m := CInt.to_char x86_64 0x99 in
  m = -103 /\ clamp_minor m = -103 /\ pack_bcd (clamp_minor m) = 0x5d.
Proof. repeat split. Qed.

End MinorByte.

(** Where plain [char] is unsigned, as on the BMC targets: for every
    minor revision the parser hands over, the builder clamps it to at
    most 99, stores (minor % 10) + (minor / 10) * 16 in firmware byte 1,
    and (byte & 0xF) + (byte >> 4) * 10 applied to the stored byte gives
    the clamped value back, which lies in 0..99. *)
Theorem minor_bcd_round_trip :
  forall (a : abi) (v r : Z) (rv : Version.rev_t)
         (d : DeviceId.ipmi_device_id_t),
    char_signed a = false ->
    0 <= r ->
    Version.minor rv = CInt.to_char a v ->
    let c := DeviceId.clamp_minor (Version.minor rv) in
    let byte := DeviceId.fw1 (DeviceId.store_revision r rv d) in
    0 <= c <= 99
    /\ c = Z.min (Version.minor rv) 99
    /\ byte = c mod 10 + (c / 10) * 16
    /\ DeviceId.unpack_bcd byte = c.
Proof.
  intros a v r rv d Hu Hr Hm c byte.
  assert (Hpos : 0 <= Version.minor rv).
  { rewrite Hm. unfold CInt.to_char. rewrite Hu. unfold CInt.to_u8.
    apply Z.mod_pos_bound. lia. }
  assert (Hc : 0 <= c <= 99) by (apply clamp_minor_range; exact Hpos).
  assert (Hb : byte = DeviceId.pack_bcd c).
  { unfold byte, DeviceId.store_revision.
    destruct (Z.leb_spec 0 r); [reflexivity | lia]. }
  split; [exact Hc|]. split.
  - unfold c, DeviceId.clamp_minor.
    destruct (Z.gtb_spec (Version.minor rv) 99); lia.
  - rewrite Hb. split.
    + apply pack_bcd_digits. exact Hc.
    + apply unpack_pack_bcd. exact Hc.
Qed.

Lemma minor_bcd_round_trip_witness :
  DeviceId.fw1
    (DeviceId.store_revision 0 Sample.rev_1_99
       (DeviceId.dev_id DeviceId.statics_init)) = 0x99
  /\ DeviceId.unpack_bcd
       (DeviceId.fw1
          (DeviceId.store_revision 0 Sample.rev_1_99
             (DeviceId.dev_id DeviceId.statics_init))) = 99.
Proof.
  destruct (minor_bcd_round_trip arm_eabi 0x99 0 Sample.rev_1_99
              (DeviceId.dev_id DeviceId.statics_init)
              eq_refl ltac:(lia) eq_refl) as (_ & _ & H1 & H2).
  split; [exact H1 | exact H2].
Defined.

(** C9. Where plain [char] is signed, version "v1.99" (the minor of
    the header comment's second format) is not clamped: [rev.minor]
    holds 0x99 as -103, [rev.minor > 99] is false, firmware byte 1
    becomes 0x5d, and (byte & 0xF) + (byte >> 4) * 10 gives 63, neither
    the minor nor a clamped value. Where plain [char] is unsigned the
    same text gives 0x99, which decodes to 99. *)
Theorem minor_clamp_misses_signed_char :
  Version.convert_version x86_64 (lit "v1.99")
  = Version.Returned 0
      (Version.mkLocals (Version.mkRev 1 (-103) 0 0 0 0) false)
  /\ DeviceId.clamp_minor (-103) = -103
  /\ (exists (rc : ipmi_ret_t) (d : DeviceId.ipmi_device_id_t),
        snd (DeviceId.ipmi_app_get_device_id x86_64
               (DeviceId.mkWorld (Some (lit "v1.99")) DeviceId.NotOpen
                  (Some true))
               DeviceId.statics_init)
        = DeviceId.Responds rc d
        /\ DeviceId.fw1 d = 0x5d
        /\ DeviceId.unpack_bcd (DeviceId.fw1 d) = 63)
  /\ (exists (rc : ipmi_ret_t) (d : DeviceId.ipmi_device_id_t),
        snd (DeviceId.ipmi_app_get_device_id arm_eabi
               (DeviceId.mkWorld (Some (lit "v1.99")) DeviceId.NotOpen
                  (Some true))
               DeviceId.statics_init)
        = DeviceId.Responds rc d
        /\ DeviceId.fw1 d = 0x99
        /\ DeviceId.unpack_bcd (DeviceId.fw1 d) = 99).
Proof.
  split; [reflexivity|]. split; [reflexivity|].
  split; eexists; eexists; (split; [reflexivity|]); split; reflexivity.
Qed.

Section DeviceIdCache.

Import DeviceId.

Variable a : abi.

Lemma static_part_set_fw0 (ready : bool) (d : ipmi_device_id_t) :
  static_part (set_fw0 (patched ready (fw0 d)) d) = static_part d.
Proof.
  unfold static_part, set_fw0. simpl. rewrite patched_low. reflexivity.
Qed.

Lemma static_part_clear (d : ipmi_device_id_t) :
  static_part (clear_state_bit d) = static_part d.
Proof. exact (static_part_set_fw0 true d). Qed.

(** Once [dev_id_initialized] is set, a call neither clears it nor
    touches the static part, whatever the collaborators answer. *)
Lemma initialized_call (w : world) (st : statics) :
  dev_id_initialized st = true ->
  dev_id_initialized (fst (ipmi_app_get_device_id a w st)) = true
  /\ static_part (dev_id (fst (ipmi_app_get_device_id a w st)))
     = static_part (dev_id st).
Proof.
  intros Hinit. unfold ipmi_app_get_device_id, initialize. rewrite Hinit.
  destruct (bmc_ready w) as [ready|]; simpl.
  - split; [exact Hinit|].
    pose proof (static_part_set_fw0 ready (dev_id st)) as H.
    unfold patched in H. unfold clear_state_bit, set_state_bit.
    destruct ready; simpl in *; exact H.
  - split; [exact Hinit | apply static_part_clear].
Qed.

Lemma initialized_calls (ws : list world) (st : statics) :
  dev_id_initialized st = true ->
  dev_id_initialized (calls a ws st) = true
  /\ static_part (dev_id (calls a ws st)) = static_part (dev_id st).
Proof.
  revert st. induction ws as [|w ws IH]; intros st Hinit; simpl.
  - split; [exact Hinit | reflexivity].
  - destruct (initialized_call w st Hinit) as [H1 H2].
    destruct (IH _ H1) as [H3 H4].
    split; [exact H3 | rewrite H4; exact H2].
Qed.

(** A call that reads the JSON file successfully sets the flag. *)
Lemma parsed_call_initializes (ver : option str) (data : dev_id_json)
    (ready : option bool) (st : statics) :
  dev_id_initialized
    (fst (ipmi_app_get_device_id a (mkWorld ver (Parsed data) ready) st))
  = true.
Proof.
  unfold ipmi_app_get_device_id, initialize. simpl.
  destruct (dev_id_initialized st) eqn:Hinit.
  - destruct ready; simpl; exact Hinit.
  - destruct (try_version a _) as [r rv].
    destruct ready; reflexivity.
Qed.

(** A call that does not leaves it as it found it. *)
Lemma failed_call_keeps_flag (ver : option str) (cfg : dev_id_file)
    (ready : option bool) (st : statics) :
  cfg = NotOpen \/ cfg = Discarded ->
  dev_id_initialized
    (fst (ipmi_app_get_device_id a (mkWorld ver cfg ready) st))
  = dev_id_initialized st.
Proof.
  intros Hcfg. unfold ipmi_app_get_device_id, initialize. simpl.
  destruct (dev_id_initialized st) eqn:Hinit.
  - destruct ready; simpl; exact Hinit.
  - destruct (try_version a _) as [r rv].
    destruct Hcfg as [-> | ->]; destruct ready; reflexivity.
Qed.

(** The handler's [try] block absorbs what [convert_version] throws:
    [r] stays -1 and the half-written [rev] is not looked at. *)
Example try_version_absorbs_throw :
  try_version a (mkWorld (Some (lit "v1.z")) NotOpen (Some true))
  = (-1, Version.rev_zero).
Proof. destruct a as [[|] be lp]; reflexivity. Qed.

End DeviceIdCache.

Section StaticFields.

Import DeviceId.

Variable a : abi.

(** The version block of a call, by what [convert_version] does. *)
Lemma try_version_cases (ver : option str) (cfg : dev_id_file)
    (ready : option bool) :
  (exists text l,
     ver = Some text
     /\ Version.convert_version a text = Version.Returned 0 l
     /\ try_version a (mkWorld ver cfg ready) = (0, Version.rev l))
  \/ (no_version a ver
      /\ exists rv, try_version a (mkWorld ver cfg ready) = (-1, rv)).
Proof.
  unfold try_version. cbn [active_version].
  destruct ver as [text|].
  - destruct (Version.convert_version a text) as [rc l|e l] eqn:Hcv.
    + destruct (convert_version_returns a _ _ _ Hcv) as [->|[-> _]].
      * left. exists text, l. repeat split. exact Hcv.
      * right. split; [|eexists; reflexivity].
        right. right. exists text, l. split; [reflexivity | exact Hcv].
    + right. split; [|eexists; reflexivity].
      right. left. exists text, e, l. split; [reflexivity | exact Hcv].
  - right. split; [left; reflexivity | eexists; reflexivity].
Qed.

Lemma no_version_excludes (ver : option str) (text : str)
    (l : Version.locals) :
  no_version a ver -> ver = Some text ->
  Version.convert_version a text = Version.Returned 0 l -> False.
Proof.
  intros [->|[(t & e & l' & -> & Hcv)|(t & l' & -> & Hcv)]] E H.
  - discriminate E.
  - inversion E. subst t. rewrite H in Hcv. discriminate Hcv.
  - inversion E. subst t. rewrite H in Hcv. discriminate Hcv.
Qed.

(** The record a call leaves is the one [initialize] leaves, up to
    bit 7 of [fw[0]]. *)
Lemma call_record (w : world) (st : statics) :
  exists x,
    dev_id (fst (ipmi_app_get_device_id a w st))
    = set_fw0 x (dev_id (fst (initialize a w st)))
    /\ Z.land x 127 = Z.land (fw0 (dev_id (fst (initialize a w st)))) 127.
Proof.
  unfold ipmi_app_get_device_id.
  destruct (initialize a w st) as [st1 rc]. cbn [fst].
  destruct (bmc_ready w) as [[|]|]; cbn [fst dev_id negb].
  - eexists. split; [reflexivity|]. exact (patched_low true _).
  - eexists. split; [reflexivity|]. exact (patched_low false _).
  - eexists. split; [reflexivity|]. exact (patched_low true _).
Qed.

Lemma aux_after_store_json (data : dev_id_json) (d : ipmi_device_id_t) :
  aux_after (Parsed data) (aux d) (store_json data d).
Proof.
  unfold aux_after, store_json. cbn [aux].
  change (CInt.to_u32 (j_aux data)) with (j_aux data mod 2 ^ 32).
  destruct (j_aux data mod 2 ^ 32 =? 0); [reflexivity|].
  unfold CInt.be32_bytes, CInt.to_u8.
  rewrite !Z.shiftr_div_pow2 by lia. reflexivity.
Qed.

Lemma config_fields_store_json (data : dev_id_json) (d : ipmi_device_id_t) :
  config_fields_of data (store_json data d).
Proof.
  unfold config_fields_of, store_json, CInt.to_u8.
  cbn [id revision addn_dev_support manuf_id prod_id].
  rewrite !Z.shiftr_div_pow2 by lia. repeat split.
Qed.

(** What a call computes when it finds the flag clear. *)
Lemma uninitialized_call_computes (st : statics) (ver : option str)
    (cfg : dev_id_file) (ready : option bool) :
  dev_id_initialized st = false ->
  let d := dev_id (fst (ipmi_app_get_device_id a (mkWorld ver cfg ready) st)) in
  ipmi_ver d = 2
  /\ match cfg with
     | Parsed data => config_fields_of data d
     | _ => config_fields_kept (dev_id st) d
     end
  /\ (forall text l,
        ver = Some text ->
        Version.convert_version a text = Version.Returned 0 l ->
        firmware_of (Version.rev l) d
        /\ aux_after cfg (Version.aux (Version.rev l)) d)
  /\ (no_version a ver ->
      firmware_kept (dev_id st) d /\ aux_after cfg (aux (dev_id st)) d)
  /\ ((exists text l,
         ver = Some text
         /\ Version.convert_version a text = Version.Returned 0 l)
      \/ no_version a ver).
Proof.
  intros Hinit d.
  destruct (call_record (mkWorld ver cfg ready) st) as (x & Hd & Hx).
  fold d in Hd.
  unfold initialize in Hd, Hx. rewrite Hinit in Hd, Hx.
  cbn [json_file] in Hd, Hx.
  destruct (try_version_cases ver cfg ready)
    as [(text & l & Hver & Hcv & Htv) | (Hno & rv & Htv)];
    rewrite Htv in Hd, Hx; unfold store_revision in Hd, Hx;
    cbn [Z.leb Z.compare] in Hd, Hx.
  - (* a revision was parsed *)
    assert (Hfw : firmware_of (Version.rev l) d
                  /\ aux_after cfg (Version.aux (Version.rev l)) d).
    { destruct cfg as [| |data]; cbn [fst dev_id] in Hd, Hx;
        rewrite Hd; unfold firmware_of, aux_after;
        cbn [set_fw0 set_ipmi_ver store_json fw0 fw1 aux] in *.
      - rewrite Hx. split; [split; [exact (patched_low true _) | reflexivity]
                           | reflexivity].
      - rewrite Hx. split; [split; [exact (patched_low true _) | reflexivity]
                           | reflexivity].
      - rewrite Hx. split; [split; [exact (patched_low true _) | reflexivity]|].
        exact (aux_after_store_json data
                 (set_ipmi_ver
                    (mkDevId (id (dev_id st)) (revision (dev_id st))
                       (masked (Version.major (Version.rev l)))
                       (pack_bcd (clamp_minor (Version.minor (Version.rev l))))
                       (ipmi_ver (dev_id st)) (addn_dev_support (dev_id st))
                       (manuf_id (dev_id st)) (prod_id (dev_id st))
                       (Version.aux (Version.rev l))))). }
    split; [|split; [|split; [|split]]].
    + destruct cfg; cbn [fst dev_id] in Hd; rewrite Hd; reflexivity.
    + destruct cfg as [| |data]; cbn [fst dev_id] in Hd; rewrite Hd.
      * repeat split.
      * repeat split.
      * exact (config_fields_store_json data _).
    + intros text' l' E Hcv'. rewrite Hver in E. inversion E. subst text'.
      rewrite Hcv in Hcv'. inversion Hcv'. subst l'. exact Hfw.
    + intros Hno. exfalso. exact (no_version_excludes _ _ _ Hno Hver Hcv).
    + left. exists text, l. split; assumption.
  - (* no revision *)
    split; [|split; [|split; [|split]]].
    + destruct cfg; cbn [fst dev_id] in Hd; rewrite Hd; reflexivity.
    + destruct cfg as [| |data]; cbn [fst dev_id] in Hd; rewrite Hd.
      * repeat split.
      * repeat split.
      * exact (config_fields_store_json data _).
    + intros text l E Hcv. exfalso. exact (no_version_excludes _ _ _ Hno E Hcv).
    + intros _.
      destruct cfg as [| |data]; cbn [fst dev_id] in Hd, Hx;
        rewrite Hd; unfold firmware_kept, aux_after;
        cbn [set_fw0 set_ipmi_ver store_json fw0 fw1 aux] in *.
      * split; [split; [exact Hx | reflexivity] | reflexivity].
      * split; [split; [exact Hx | reflexivity] | reflexivity].
      * split; [split; [exact Hx | reflexivity]|].
        exact (aux_after_store_json data (set_ipmi_ver (dev_id st))).
    + right. exact Hno.
Qed.

End StaticFields.

(** C1, as the code has it. Every call that finds the flag clear
    computes the static part of the record from its own inputs: the
    protocol version is set to 2; the firmware revision bytes and the
    aux bytes are set from the version when it is looked up and parsed,
    and kept otherwise; the id, revision, device support, manufacturer
    and product fields (and a non-zero aux override) are set from the
    JSON file when it is read, and kept otherwise. The call that reads
    the JSON file sets the flag, and from then on the static part is
    reused unconditionally, also when the version lookup or the version
    parse failed in that very call. While the file is missing or
    unparsable the flag stays clear, so the next call computes again:
    a later call that reads the file leaves that call's values. *)
Theorem device_id_cached_once_config_is_read :
  forall (a : abi) (st : DeviceId.statics) (ver : option str)
         (data : DeviceId.dev_id_json) (ready ready' : option bool)
         (later : list DeviceId.world),
    let st1 :=
      fst (DeviceId.ipmi_app_get_device_id a
             (DeviceId.mkWorld ver (DeviceId.Parsed data) ready) st) in
    DeviceId.dev_id_initialized st1 = true
    /\ DeviceId.dev_id_initialized (DeviceId.calls a later st1) = true
    /\ DeviceId.static_part (DeviceId.dev_id (DeviceId.calls a later st1))
       = DeviceId.static_part (DeviceId.dev_id st1)
    /\ DeviceId.dev_id_initialized
         (fst (DeviceId.ipmi_app_get_device_id a
                 (DeviceId.mkWorld ver DeviceId.NotOpen ready') st))
       = DeviceId.dev_id_initialized st
    /\ DeviceId.dev_id_initialized
         (fst (DeviceId.ipmi_app_get_device_id a
                 (DeviceId.mkWorld ver DeviceId.Discarded ready') st))
       = DeviceId.dev_id_initialized st
    /\ (forall (cfg : DeviceId.dev_id_file),
          DeviceId.dev_id_initialized st = false ->
          let d :=
            DeviceId.dev_id
              (fst (DeviceId.ipmi_app_get_device_id a
                      (DeviceId.mkWorld ver cfg ready) st)) in
          DeviceId.ipmi_ver d = 2
          /\ match cfg with
             | DeviceId.Parsed dat => DeviceId.config_fields_of dat d
             | _ => DeviceId.config_fields_kept (DeviceId.dev_id st) d
             end
          /\ (forall text l,
                ver = Some text ->
                Version.convert_version a text = Version.Returned 0 l ->
                DeviceId.firmware_of (Version.rev l) d
                /\ DeviceId.aux_after cfg (Version.aux (Version.rev l)) d)
          /\ (DeviceId.no_version a ver ->
              DeviceId.firmware_kept (DeviceId.dev_id st) d
              /\ DeviceId.aux_after cfg (DeviceId.aux (DeviceId.dev_id st)) d)
          /\ ((exists text l,
                 ver = Some text
                 /\ Version.convert_version a text = Version.Returned 0 l)
              \/ DeviceId.no_version a ver))
    /\ (forall (cfg1 : DeviceId.dev_id_file) (ver1 : option str)
               (ready1 : option bool),
          DeviceId.dev_id_initialized st = false ->
          cfg1 = DeviceId.NotOpen \/ cfg1 = DeviceId.Discarded ->
          let d2 :=
            DeviceId.dev_id
              (fst (DeviceId.ipmi_app_get_device_id a
                      (DeviceId.mkWorld ver (DeviceId.Parsed data) ready)
                      (fst (DeviceId.ipmi_app_get_device_id a
                              (DeviceId.mkWorld ver1 cfg1 ready1) st)))) in
          DeviceId.ipmi_ver d2 = 2
          /\ DeviceId.config_fields_of data d2
          /\ (forall text l,
                ver = Some text ->
                Version.convert_version a text = Version.Returned 0 l ->
                DeviceId.firmware_of (Version.rev l) d2
                /\ DeviceId.aux_after (DeviceId.Parsed data)
                     (Version.aux (Version.rev l)) d2)).
Proof.
  intros a st ver data ready ready' later st1.
  assert (H1 : DeviceId.dev_id_initialized st1 = true)
    by apply parsed_call_initializes.
  destruct (initialized_calls a later st1 H1) as [H2 H3].
  split; [exact H1|]. split; [exact H2|]. split; [exact H3|].
  split; [apply failed_call_keeps_flag; left; reflexivity|].
  split; [apply failed_call_keeps_flag; right; reflexivity|].
  split.
  - intros cfg Hinit. exact (uninitialized_call_computes a st ver cfg ready Hinit).
  - intros cfg1 ver1 ready1 Hinit Hcfg1 d2.
    assert (Hflag : DeviceId.dev_id_initialized
                      (fst (DeviceId.ipmi_app_get_device_id a
                              (DeviceId.mkWorld ver1 cfg1 ready1) st)) = false).
    { rewrite failed_call_keeps_flag by exact Hcfg1. exact Hinit. }
    destruct (uninitialized_call_computes a _ ver (DeviceId.Parsed data) ready Hflag)
      as (Hv & Hc & Hf & _).
    fold d2 in Hv, Hc, Hf.
    split; [exact Hv|]. split; [exact Hc | exact Hf].
Qed.

(** C1 as stated fails: a first call that finds no JSON file (and no
    active version) leaves the flag clear; the second call, which finds
    both, computes the static fields afresh, so the record does not stay
    degraded. *)
Lemma device_id_retries_after_missing_config :
  DeviceId.dev_id_initialized Sample.after_first_call = false
  /\ DeviceId.wire (DeviceId.dev_id Sample.after_first_call)
     = [0; 0; 0; 0; 2; 0; 0; 0; 0; 0; 0; 0; 0; 0; 0]
  /\ DeviceId.wire (DeviceId.dev_id Sample.after_second_call)
     = [1; 2; 0x02; 0x02; 2; 3; 0xde; 0xc0; 0x00; 0x02; 0x01;
        0x18; 0x06; 0x08; 0x15]
  /\ DeviceId.static_part (DeviceId.dev_id Sample.after_second_call)
     <> DeviceId.static_part (DeviceId.dev_id Sample.after_first_call).
Proof.
  split; [reflexivity|]. split; [reflexivity|]. split; [reflexivity|].
  vm_compute. discriminate.
Qed.

Section Availability.

Import DeviceId.

Variable a : abi.

Lemma same_but_state_bit_patched (r1 r2 : bool) (x : Z)
    (d : ipmi_device_id_t) :
  same_but_state_bit (set_fw0 (patched r1 x) d) (set_fw0 (patched r2 x) d).
Proof.
  unfold same_but_state_bit, set_fw0. simpl.
  repeat split. intros i Hi.
  rewrite !patched_bits_neg by exact Hi. reflexivity.
Qed.

Lemma state_bit_patched (ready : bool) (x : Z) :
  Z.testbit (patched ready x) 7 = negb ready.
Proof. rewrite patched_bits by lia. reflexivity. Qed.

Lemma set_fw0_twice (x y : Z) (d : ipmi_device_id_t) :
  set_fw0 x (set_fw0 y d) = set_fw0 x d.
Proof. reflexivity. Qed.

(** A record that agrees with another one outside bit 7 of [fw[0]]
    goes over the wire with the same bytes everywhere but at offset 2. *)
Lemma same_but_state_bit_wire (d1 d2 : ipmi_device_id_t) (k : nat) :
  same_but_state_bit d1 d2 -> k <> 2%nat ->
  nth k (wire d1) 0 = nth k (wire d2) 0.
Proof.
  intros (H1 & H2 & H3 & H4 & H5 & H6 & H7 & H8 & _) Hk.
  unfold wire. rewrite H1, H2, H3, H4, H5, H6, H7, H8.
  destruct k as [|[|[|k]]]; try reflexivity. contradiction.
Qed.

(** Calling again with the same version and file answers: the record
    after the second [initialize] is the one the first call would have
    produced, up to the availability bit the first call left behind. *)
Lemma second_initialize (ver : option str) (cfg : dev_id_file)
    (r1 r2 : bool) (st : statics) :
  let w1 := mkWorld ver cfg (Some r1) in
  let w2 := mkWorld ver cfg (Some r2) in
  let st1 := fst (ipmi_app_get_device_id a w1 st) in
  snd (initialize a w2 st1) = snd (initialize a w1 st)
  /\ dev_id_initialized (fst (initialize a w2 st1))
     = dev_id_initialized (fst (initialize a w1 st))
  /\ set_fw0 (patched r2 (fw0 (dev_id (fst (initialize a w2 st1)))))
             (dev_id (fst (initialize a w2 st1)))
     = set_fw0 (patched r2 (fw0 (dev_id (fst (initialize a w1 st)))))
               (dev_id (fst (initialize a w1 st))).
Proof.
  intros w1 w2 st1. unfold st1, w1, w2.
  rewrite get_device_id_answer. cbv zeta.
  unfold initialize. cbn [fst snd dev_id dev_id_initialized
                          active_version json_file bmc_ready].
  destruct st as [d0 init0]. cbn [dev_id dev_id_initialized].
  destruct init0.
  - (* already initialised *)
    cbn [fst snd dev_id dev_id_initialized].
    repeat split.
    unfold set_fw0. cbn. rewrite patched_idem. reflexivity.
  - destruct (try_version a (mkWorld ver cfg (Some r1))) as [r rv] eqn:Hv.
    assert (Hv2 : try_version a (mkWorld ver cfg (Some r2)) = (r, rv))
      by exact Hv.
    rewrite Hv2.
    destruct cfg as [| |data];
      cbn [fst snd dev_id dev_id_initialized]; rewrite ?Hv2.
    + (* file not open: computed again *)
      repeat split.
      unfold store_revision. destruct (0 <=? r).
      * unfold set_fw0, set_ipmi_ver. cbn. reflexivity.
      * unfold set_fw0, set_ipmi_ver. cbn. rewrite patched_idem.
        reflexivity.
    + (* JSON discarded: computed again *)
      repeat split.
      unfold store_revision. destruct (0 <=? r).
      * unfold set_fw0, set_ipmi_ver. cbn. reflexivity.
      * unfold set_fw0, set_ipmi_ver. cbn. rewrite patched_idem.
        reflexivity.
    + (* JSON read: cached by the first call *)
      repeat split.
      unfold set_fw0. cbn. rewrite patched_idem. reflexivity.
Qed.

End Availability.

(** C8. With the same answers of the version and configuration
    sources, two builds that differ in availability only -- from the
    same statics, or one call after the other -- return records that
    agree in every field and in every bit of firmware byte 0 except
    bit 7; with the availability unchanged the second call returns the
    very same record. In every reply bit 7 of firmware byte 0 is set
    exactly when the controller is not ready. *)
Theorem device_id_availability_frame :
  forall (a : abi) (st : DeviceId.statics) (ver : option str)
         (cfg : DeviceId.dev_id_file) (ready ready' : bool),
    let w := DeviceId.mkWorld ver cfg (Some ready) in
    let w' := DeviceId.mkWorld ver cfg (Some ready') in
    let st1 := fst (DeviceId.ipmi_app_get_device_id a w st) in
    exists (rc : ipmi_ret_t) (d d' : DeviceId.ipmi_device_id_t),
      snd (DeviceId.ipmi_app_get_device_id a w st) = DeviceId.Responds rc d
      /\ snd (DeviceId.ipmi_app_get_device_id a w' st) = DeviceId.Responds rc d'
      /\ snd (DeviceId.ipmi_app_get_device_id a w st1) = DeviceId.Responds rc d
      /\ snd (DeviceId.ipmi_app_get_device_id a w' st1) = DeviceId.Responds rc d'
      /\ DeviceId.same_but_state_bit d d'
      /\ Z.testbit (DeviceId.fw0 d) 7 = negb ready
      /\ Z.testbit (DeviceId.fw0 d') 7 = negb ready'.
Proof.
  intros a st ver cfg ready ready' w w' st1.
  destruct (second_initialize a ver cfg ready ready st) as (Ha1 & Ha2 & Ha3).
  destruct (second_initialize a ver cfg ready ready' st) as (Hb1 & Hb2 & Hb3).
  fold w in Ha1, Ha2, Ha3, Hb1, Hb2, Hb3. fold w' in Hb1, Hb2, Hb3.
  fold st1 in Ha1, Ha2, Ha3, Hb1, Hb2, Hb3.
  unfold w, w' in *.
  exists (snd (DeviceId.initialize a w st)).
  exists (DeviceId.set_fw0
            (DeviceId.patched ready
               (DeviceId.fw0 (DeviceId.dev_id (fst (DeviceId.initialize a w st)))))
            (DeviceId.dev_id (fst (DeviceId.initialize a w st)))).
  exists (DeviceId.set_fw0
            (DeviceId.patched ready'
               (DeviceId.fw0 (DeviceId.dev_id (fst (DeviceId.initialize a w st)))))
            (DeviceId.dev_id (fst (DeviceId.initialize a w st)))).
  unfold w in *.
  rewrite !get_device_id_answer. cbv zeta. cbn [snd].
  rewrite (initialize_ignores_readiness a ver cfg (Some ready') (Some ready) st).
  rewrite Ha1, Ha3, Hb1, Hb3.
  repeat split.
  - apply same_but_state_bit_patched.
  - apply state_bit_patched.
  - apply state_bit_patched.
Qed.

(** ** The GUID conversions *)

Section HexDigits.

Import Guid.

Lemma hex_char_plain (c : ascii) :
  is_hex c = true ->
  Ascii.eqb c NUL = false /\ isspace c = false /\ Ascii.eqb c "-" = false
  /\ Ascii.eqb c "+" = false /\ is_x c = false.
Proof.
  destruct c as [b0 b1 b2 b3 b4 b5 b6 b7].
  destruct b0, b1, b2, b3, b4, b5, b6, b7;
    intros H; vm_compute in H; try discriminate H;
    vm_compute; repeat split.
Qed.

Lemma hex_val_range (c : ascii) : 0 <= hex_val c < 16.
Proof.
  destruct c as [b0 b1 b2 b3 b4 b5 b6 b7].
  destruct b0, b1, b2, b3, b4, b5, b6, b7; vm_compute; split; congruence.
Qed.

Lemma hex_digit_in (c : ascii) :
  is_hex c = true -> digit_in 16 c = Some (hex_val c).
Proof.
  unfold is_hex, hex_val. destruct (digit_in 16 c); [reflexivity|discriminate].
Qed.

Lemma int_range_byte (v : Z) :
  0 <= v < 256 -> (CInt.INT_MIN <=? v) && (v <=? CInt.INT_MAX) = true.
Proof.
  intros Hv. unfold CInt.INT_MIN, CInt.INT_MAX.
  apply andb_true_iff. split; apply Z.leb_le; lia.
Qed.

(** What [strtol] and [strtoul] make of two hexadecimal digits. *)
Lemma subject_hex_pair (c1 c2 : ascii) :
  is_hex c1 = true -> is_hex c2 = true ->
  subject 16 (c_str [c1; c2]) = Some (hex_val c1 * 16 + hex_val c2).
Proof.
  intros H1 H2.
  destruct (hex_char_plain c1 H1) as (N1 & S1 & M1 & P1 & _).
  destruct (hex_char_plain c2 H2) as (N2 & _ & _ & _ & X2).
  unfold c_str. rewrite N1, N2.
  unfold subject, skip_space. rewrite S1, M1, P1.
  rewrite X2, andb_false_r.
  unfold digits. rewrite (hex_digit_in c1 H1), (hex_digit_in c2 H2).
  f_equal.
Qed.

(** ... and of a single one. *)
Lemma subject_hex_single (c : ascii) :
  is_hex c = true -> subject 16 (c_str [c]) = Some (hex_val c).
Proof.
  intros H1.
  destruct (hex_char_plain c H1) as (N1 & S1 & M1 & P1 & _).
  unfold c_str. rewrite N1.
  unfold subject, skip_space. rewrite S1, M1, P1.
  unfold digits. rewrite (hex_digit_in c H1).
  f_equal.
Qed.

Lemma stoi_hex_pair (c1 c2 : ascii) :
  is_hex c1 = true -> is_hex c2 = true ->
  stoi [c1; c2] 16 = StoiOk (hex_val c1 * 16 + hex_val c2).
Proof.
  intros H1 H2. unfold stoi. rewrite subject_hex_pair by assumption.
  rewrite int_range_byte; [reflexivity|].
  pose proof (hex_val_range c1). pose proof (hex_val_range c2). lia.
Qed.

Lemma stoi_hex_single (c : ascii) :
  is_hex c = true -> stoi [c] 16 = StoiOk (hex_val c).
Proof.
  intros H1. unfold stoi. rewrite subject_hex_single by assumption.
  rewrite int_range_byte; [reflexivity|].
  pose proof (hex_val_range c). lia.
Qed.

Lemma to_u8_hex_pair (c1 c2 : ascii) :
  CInt.to_u8 (hex_val c1 * 16 + hex_val c2) = hex_val c1 * 16 + hex_val c2.
Proof.
  unfold CInt.to_u8. apply Z.mod_small.
  pose proof (hex_val_range c1). pose proof (hex_val_range c2).
  change (2 ^ 8) with 256. lia.
Qed.

End HexDigits.

Section CopyLoops.

Import Guid.

Variable a : abi.

(** Induction two characters at a time. *)
Lemma pair_induction (P : str -> Prop) :
  P [] -> (forall c, P [c]) ->
  (forall c1 c2 t, P t -> P (c1 :: c2 :: t)) ->
  forall s, P s.
Proof.
  intros H0 H1 H2.
  assert (H : forall s, P s /\ forall c, P (c :: s)).
  { induction s as [|c s [IH1 IH2]].
    - split; [exact H0 | exact H1].
    - split; [apply IH2 | intros c0; apply H2; exact IH1]. }
  intros s. apply H.
Qed.

Lemma store_front (n : nat) (v : Z) (done : buffer) :
  store n v (repeat None (S n) ++ done) = repeat None n ++ Some v :: done.
Proof.
  induction n as [|n IH].
  - reflexivity.
  - change (repeat None (S (S n)) ++ done)
      with (None :: (repeat (@None Z) (S n) ++ done)).
    cbn [store]. rewrite IH. reflexivity.
Qed.

Lemma to_size_t_small (x : Z) : 0 <= x < 16 -> CInt.to_size_t a x = x.
Proof.
  intros Hx. unfold CInt.to_size_t, CInt.size_bits.
  apply Z.mod_small. destruct (lp64 a); lia.
Qed.

Lemma to_size_t_minus_one : 16 <= CInt.to_size_t a (-1).
Proof.
  unfold CInt.to_size_t, CInt.size_bits.
  destruct (lp64 a); vm_compute; discriminate.
Qed.

Lemma rev_cons_done (v : Z) (l : list Z) (done : buffer) :
  map Some (rev (v :: l)) ++ done = map Some (rev l) ++ Some v :: done.
Proof.
  cbn [rev]. rewrite map_app, <- app_assoc. reflexivity.
Qed.

(** The system handler's loop over an even number of hexadecimal
    digits that still fit: the pairs end up below what was stored
    before, last pair first, and the loop goes on with what follows. *)
Lemma sys_copy_pairs (s : str) :
  forallb is_hex s = true ->
  Nat.even (List.length s) = true ->
  forall (t : str) (rest : nat) (done : buffer),
    (List.length (byte_pairs s) + rest <= 16)%nat ->
    sys_copy a (s ++ t)
      (CInt.to_size_t a (Z.of_nat (List.length (byte_pairs s) + rest) - 1))
      (repeat None (List.length (byte_pairs s) + rest) ++ done)
    = sys_copy a t (CInt.to_size_t a (Z.of_nat rest - 1))
        (repeat None rest ++ map Some (rev (byte_pairs s)) ++ done).
Proof.
  induction s as [| c | c1 c2 s IH] using pair_induction.
  - intros _ _ t rest done _. reflexivity.
  - intros _ Hodd. discriminate Hodd.
  - intros Hhex Heven t rest done Hfit.
    cbn [forallb] in Hhex.
    apply andb_true_iff in Hhex. destruct Hhex as [H1 Hhex].
    apply andb_true_iff in Hhex. destruct Hhex as [H2 Hhex].
    cbn [byte_pairs List.length Nat.add] in *.
    set (m := List.length (byte_pairs s)) in *.
    rewrite to_size_t_small by lia.
    change ((c1 :: c2 :: s) ++ t) with (c1 :: c2 :: (s ++ t)).
    cbn [sys_copy].
    replace (0 <=? Z.of_nat (S (m + rest)) - 1) with true
      by (symmetry; apply Z.leb_le; lia).
    change (substr 0 2 (c1 :: c2 :: s ++ t)) with [c1; c2].
    rewrite stoi_hex_pair by assumption.
    replace (in_bounds (Z.of_nat (S (m + rest)) - 1)) with true
      by (symmetry; unfold in_bounds; apply andb_true_iff;
          split; [apply Z.leb_le | apply Z.ltb_lt]; lia).
    replace (Z.to_nat (Z.of_nat (S (m + rest)) - 1)) with (m + rest)%nat
      by lia.
    rewrite store_front, to_u8_hex_pair.
    replace (Z.of_nat (S (m + rest)) - 1 - 1) with (Z.of_nat (m + rest) - 1)
      by lia.
    rewrite (IH Hhex Heven t rest) by lia.
    rewrite rev_cons_done. reflexivity.
Qed.

Lemma byte_pairs_length (s : str) :
  Nat.even (List.length s) = true ->
  (2 * List.length (byte_pairs s) = List.length s)%nat.
Proof.
  induction s as [| c | c1 c2 s IH] using pair_induction; intros He.
  - reflexivity.
  - discriminate He.
  - cbn [byte_pairs List.length] in *. specialize (IH He). lia.
Qed.

Lemma nth_byte_pairs (s : str) (k : nat) :
  (2 * k + 1 < List.length s)%nat ->
  nth k (byte_pairs s) 0
  = hex_val (nth (2 * k) s NUL) * 16 + hex_val (nth (2 * k + 1) s NUL).
Proof.
  revert k. induction s as [| c | c1 c2 s IH] using pair_induction;
    intros k Hk; cbn [List.length] in Hk; try lia.
  destruct k as [|k].
  - reflexivity.
  - cbn [byte_pairs nth].
    replace (2 * S k)%nat with (S (S (2 * k))) by lia.
    replace (S (S (2 * k)) + 1)%nat with (S (S (2 * k + 1))) by lia.
    cbn [nth]. apply IH. lia.
Qed.

End CopyLoops.

Section SystemGuid.

Import Guid.

Variable a : abi.

(** The system handler on exactly 32 hexadecimal digits. *)
Lemma sys_guid_32 (text : str) :
  List.length (remove_char "-" text) = 32%nat ->
  forallb is_hex (remove_char "-" text) = true ->
  ipmi_app_get_sys_guid a (Some text)
  = Sent IPMI_CC_OK (map Some (rev (byte_pairs (remove_char "-" text)))).
Proof.
  intros Hlen Hhex. unfold ipmi_app_get_sys_guid.
  set (g := remove_char "-" text) in *.
  rewrite Hlen. cbn [Z.of_nat]. 
  change ((Z.pos (Pos.of_succ_nat 31) <=? 0)
          || negb (Z.pos (Pos.of_succ_nat 31) / 2 =? bmc_guid_len))
    with false.
  cbv iota.
  assert (Heven : Nat.even (List.length g) = true) by (rewrite Hlen; reflexivity).
  assert (Hn : List.length (byte_pairs g) = 16%nat).
  { pose proof (byte_pairs_length g Heven). lia. }
  pose proof (sys_copy_pairs a g Hhex Heven [] 0 []) as H.
  rewrite Hn in H. specialize (H ltac:(lia)).
  rewrite app_nil_r in H.
  change (CInt.to_size_t a (Z.of_nat (16 + 0) - 1)) with (CInt.to_size_t a 15) in H.
  rewrite to_size_t_small in H by lia.
  change (repeat None (16 + 0) ++ []) with fresh in H.
  change (bmc_guid_len - 1) with 15.
  rewrite H. cbn [sys_copy repeat app]. rewrite app_nil_r. reflexivity.
Qed.

(** ... and on 33: the seventeenth store is outside the array. *)
Lemma sys_guid_33 (text : str) :
  List.length (remove_char "-" text) = 33%nat ->
  forallb is_hex (remove_char "-" text) = true ->
  ipmi_app_get_sys_guid a (Some text)
  = OutOfBounds (CInt.to_size_t a (-1)).
Proof.
  intros Hlen Hhex. unfold ipmi_app_get_sys_guid.
  set (g := remove_char "-" text) in *.
  rewrite Hlen. cbn [Z.of_nat].
  change ((Z.pos (Pos.of_succ_nat 32) <=? 0)
          || negb (Z.pos (Pos.of_succ_nat 32) / 2 =? bmc_guid_len))
    with false.
  cbv iota.
  assert (Hsplit : g = firstn 32 g ++ skipn 32 g)
    by (symmetry; apply firstn_skipn).
  assert (Hl1 : List.length (firstn 32 g) = 32%nat)
    by (rewrite length_firstn; lia).
  assert (Hl2 : List.length (skipn 32 g) = 1%nat)
    by (rewrite length_skipn; lia).
  rewrite Hsplit in Hhex. rewrite forallb_app in Hhex.
  apply andb_true_iff in Hhex. destruct Hhex as [Hh1 Hh2].
  destruct (skipn 32 g) as [|c [|c' t]]; try discriminate Hl2.
  cbn [forallb] in Hh2. rewrite andb_true_r in Hh2.
  assert (Heven : Nat.even (List.length (firstn 32 g)) = true)
    by (rewrite Hl1; reflexivity).
  assert (Hn : List.length (byte_pairs (firstn 32 g)) = 16%nat).
  { pose proof (byte_pairs_length (firstn 32 g) Heven). lia. }
  pose proof (sys_copy_pairs a (firstn 32 g) Hh1 Heven [c] 0 []) as H.
  rewrite Hn in H. specialize (H ltac:(lia)).
  change (CInt.to_size_t a (Z.of_nat (16 + 0) - 1)) with (CInt.to_size_t a 15) in H.
  rewrite to_size_t_small in H by lia.
  change (repeat None (16 + 0) ++ []) with fresh in H.
  change (bmc_guid_len - 1) with 15.
  rewrite Hsplit, H.
  change (Z.of_nat 0 - 1) with (-1).
  pose proof (to_size_t_minus_one a) as Hbig.
  cbn [sys_copy].
  replace (0 <=? CInt.to_size_t a (-1)) with true
    by (symmetry; apply Z.leb_le; lia).
  change (substr 0 2 [c]) with [c].
  rewrite stoi_hex_single by assumption.
  replace (in_bounds (CInt.to_size_t a (-1))) with false; [reflexivity|].
  symmetry. unfold in_bounds. apply andb_false_iff. right.
  apply Z.ltb_ge. lia.
Qed.

(** The length test lets exactly the lengths 32 and 33 through. *)
Lemma sys_guid_length_test (text : str) :
  ipmi_app_get_sys_guid a (Some text) = Failed IPMI_CC_RESPONSE_ERROR
  <-> List.length (remove_char "-" text) <> 32%nat
      /\ List.length (remove_char "-" text) <> 33%nat.
Proof.
  unfold ipmi_app_get_sys_guid.
  set (g := remove_char "-" text).
  set (n := Z.of_nat (List.length g)).
  assert (Hn : 0 <= n) by (unfold n; lia).
  destruct ((n <=? 0) || negb (n / 2 =? bmc_guid_len)) eqn:Ht.
  - split; [intros _ | reflexivity].
    apply orb_true_iff in Ht. destruct Ht as [Ht|Ht].
    + apply Z.leb_le in Ht. lia.
    + apply negb_true_iff, Z.eqb_neq in Ht. unfold bmc_guid_len in Ht.
      split; intros E; apply Ht; unfold n; rewrite E; reflexivity.
  - apply orb_false_iff in Ht. destruct Ht as [_ Ht].
    apply negb_false_iff, Z.eqb_eq in Ht. unfold bmc_guid_len in Ht.
    assert (Hn' : n = 32 \/ n = 33).
    { pose proof (Z.div_mod n 2 ltac:(lia)).
      pose proof (Z.mod_pos_bound n 2 ltac:(lia)). lia. }
    split.
    + destruct (sys_copy a g _ fresh); intros H; discriminate H.
    + intros [H1 H2]. unfold n in Hn'. lia.
Qed.

End SystemGuid.

Section DeviceGuid.

Import Guid.

Variable a : abi.

Lemma octet_copy_spec (o : str) :
  forall (k : nat) (done : buffer),
    (k <= 16)%nat ->
    octet_copy a o (Z.of_nat k - 1) (repeat None k ++ done)
    = if (List.length (octet_bytes a o) <=? k)%nat
      then Finished (Z.of_nat (k - List.length (octet_bytes a o)) - 1)
             (repeat None (k - List.length (octet_bytes a o))
                ++ map Some (rev (octet_bytes a o)) ++ done)
      else WritesOutside (-1).
Proof.
  induction o as [| c | c1 c2 t IH] using pair_induction;
    intros k done Hk.
  - cbn [octet_copy octet_bytes List.length Nat.leb rev map app].
    rewrite Nat.sub_0_r. reflexivity.
  - cbn [octet_copy octet_bytes List.length Nat.leb rev map app].
    rewrite Nat.sub_0_r. reflexivity.
  - cbn [octet_copy octet_bytes List.length].
    destruct k as [|k].
    + reflexivity.
    + replace (in_bounds (Z.of_nat (S k) - 1)) with true
        by (symmetry; unfold in_bounds; apply andb_true_iff;
            split; [apply Z.leb_le | apply Z.ltb_lt]; lia).
      replace (Z.to_nat (Z.of_nat (S k) - 1)) with k by lia.
      rewrite store_front.
      replace (Z.of_nat (S k) - 1 - 1) with (Z.of_nat k - 1) by lia.
      rewrite IH by lia.
      cbn [Nat.leb Nat.sub].
      destruct (List.length (octet_bytes a t) <=? k)%nat; [|reflexivity].
      rewrite rev_cons_done. reflexivity.
Qed.

Lemma uuid_copy_spec (octets : list str) :
  forall (k : nat) (done : buffer),
    (k <= 16)%nat ->
    uuid_copy a octets (Z.of_nat k - 1) (repeat None k ++ done)
    = if (List.length (uuid_bytes a octets) <=? k)%nat
      then Finished (Z.of_nat (k - List.length (uuid_bytes a octets)) - 1)
             (repeat None (k - List.length (uuid_bytes a octets))
                ++ map Some (rev (uuid_bytes a octets)) ++ done)
      else WritesOutside (-1).
Proof.
  induction octets as [|o r IH]; intros k done Hk.
  - cbn [uuid_copy uuid_bytes map List.concat List.length Nat.leb rev app].
    rewrite Nat.sub_0_r. reflexivity.
  - cbn [uuid_copy]. rewrite octet_copy_spec by exact Hk.
    unfold uuid_bytes in *. cbn [map List.concat].
    rewrite length_app, rev_app_distr, map_app.
    set (m := List.length (octet_bytes a o)).
    set (n := List.length (List.concat (map (octet_bytes a) r))) in *.
    destruct (Nat.leb_spec m k) as [Hm|Hm].
    + rewrite IH by lia.
      destruct (Nat.leb_spec n (k - m)) as [Hn|Hn];
        destruct (Nat.leb_spec (m + n) k) as [Hmn|Hmn]; try lia.
      * replace (k - m - n)%nat with (k - (m + n))%nat by lia.
        rewrite <- !app_assoc. reflexivity.
      * reflexivity.
    + destruct (Nat.leb_spec (m + n) k) as [Hmn|Hmn]; [lia | reflexivity].
Qed.

Lemma octet_bytes_length (o : str) :
  Z.of_nat (List.length (octet_bytes a o)) = Z.of_nat (List.length o) / 2.
Proof.
  induction o as [| c | c1 c2 t IH] using pair_induction.
  - reflexivity.
  - reflexivity.
  - cbn [octet_bytes List.length].
    rewrite !Nat2Z.inj_succ, IH.
    replace (Z.succ (Z.succ (Z.of_nat (List.length t))))
      with (Z.of_nat (List.length t) + 1 * 2) by lia.
    rewrite Z.div_add by lia. lia.
Qed.

Lemma pair_count_bytes (octets : list str) :
  pair_count octets = Z.of_nat (List.length (uuid_bytes a octets)).
Proof.
  induction octets as [|o r IH].
  - reflexivity.
  - unfold uuid_bytes in *. cbn [pair_count fold_right map List.concat].
    fold (pair_count r). rewrite IH, length_app, Nat2Z.inj_add.
    rewrite octet_bytes_length. reflexivity.
Qed.

(** The device handler on a UUID with at least one octet string. *)
Lemma device_guid_spec (uuid : str) :
  strtok_all uuid (lit "-") <> [] ->
  ipmi_app_get_device_guid a (Uuid uuid)
  = if pair_count (strtok_all uuid (lit "-")) <=? 16
    then Sent IPMI_CC_OK
           (repeat None
              (16 - List.length (uuid_bytes a (strtok_all uuid (lit "-"))))
            ++ map Some (rev (uuid_bytes a (strtok_all uuid (lit "-")))))
    else OutOfBounds (-1).
Proof.
  intros Hne. unfold ipmi_app_get_device_guid.
  set (octets := strtok_all uuid (lit "-")) in *.
  destruct octets as [|o r] eqn:Ho; [contradiction|].
  rewrite <- Ho. clear Ho.
  pose proof (uuid_copy_spec octets 16 [] ltac:(lia)) as H.
  change (Z.of_nat 16 - 1) with (resp_size - 1) in H.
  change (repeat None 16 ++ []) with fresh in H.
  rewrite H, (pair_count_bytes octets).
  destruct (Nat.leb_spec (List.length (uuid_bytes a octets)) 16) as [Hn|Hn].
  - replace (Z.of_nat (List.length (uuid_bytes a octets)) <=? 16) with true
      by (symmetry; apply Z.leb_le; lia).
    rewrite app_nil_r. reflexivity.
  - replace (Z.of_nat (List.length (uuid_bytes a octets)) <=? 16) with false
      by (symmetry; apply Z.leb_gt; lia).
    reflexivity.
Qed.

End DeviceGuid.

Section Octets.

Import Guid.

Variable a : abi.

Lemma mem_hyphen (c : ascii) : mem c (lit "-") = Ascii.eqb c "-".
Proof. unfold mem, lit. cbn. apply orb_false_r. Qed.

(** The octet strings, put end to end, are the text without hyphens. *)
Lemma strtok_from_concat (s cur : str) :
  List.concat (strtok_from (lit "-") s cur) = rev cur ++ remove_char "-" s.
Proof.
  revert cur. induction s as [|c r IH]; intros cur.
  - cbn [strtok_from remove_char filter].
    destruct cur as [|x cur]; [reflexivity|].
    cbn [List.concat]. rewrite app_nil_r. reflexivity.
  - cbn [strtok_from]. rewrite mem_hyphen.
    unfold remove_char in *. cbn [filter].
    destruct (Ascii.eqb c "-") eqn:Hc; cbn [negb].
    + destruct cur as [|x cur].
      * apply IH.
      * cbn [List.concat]. rewrite IH. reflexivity.
    + rewrite IH. cbn [rev]. rewrite <- app_assoc. reflexivity.
Qed.

Lemma c_str_hex_text (text : str) :
  forallb is_hex (remove_char "-" text) = true -> c_str text = text.
Proof.
  unfold remove_char.
  induction text as [|c r IH]; intros Hhex.
  - reflexivity.
  - cbn [filter] in Hhex. cbn [c_str].
    destruct (Ascii.eqb c "-") eqn:Hc; cbn [negb] in Hhex.
    + apply Ascii.eqb_eq in Hc. subst c.
      change (Ascii.eqb "-" NUL) with false. cbv iota.
      f_equal. apply IH. exact Hhex.
    + cbn [forallb] in Hhex. apply andb_true_iff in Hhex.
      destruct Hhex as [H1 H2].
      destruct (hex_char_plain c H1) as (N1 & _).
      rewrite N1. f_equal. apply IH. exact H2.
Qed.

Lemma strtok_all_concat (text : str) :
  forallb is_hex (remove_char "-" text) = true ->
  List.concat (strtok_all text (lit "-")) = remove_char "-" text.
Proof.
  intros Hhex. unfold strtok_all. rewrite c_str_hex_text by exact Hhex.
  apply strtok_from_concat.
Qed.

Lemma strtoul_hex_pair (c1 c2 : ascii) :
  is_hex c1 = true -> is_hex c2 = true ->
  strtoul_int [c1; c2] 16 = hex_val c1 * 16 + hex_val c2.
Proof.
  intros H1 H2. unfold strtoul_int.
  rewrite subject_hex_pair by assumption.
  pose proof (hex_val_range c1). pose proof (hex_val_range c2).
  rewrite Z.mod_small by lia. lia.
Qed.

Lemma octet_bytes_hex (o : str) :
  big_endian a = false ->
  forallb is_hex o = true ->
  octet_bytes a o = byte_pairs o.
Proof.
  intros Hle.
  induction o as [| c | c1 c2 t IH] using pair_induction; intros Hhex.
  - reflexivity.
  - reflexivity.
  - cbn [forallb] in Hhex.
    apply andb_true_iff in Hhex. destruct Hhex as [H1 Hhex].
    apply andb_true_iff in Hhex. destruct Hhex as [H2 Hhex].
    cbn [octet_bytes byte_pairs].
    rewrite strtoul_hex_pair by assumption.
    unfold CInt.first_byte_of_int. rewrite Hle, to_u8_hex_pair.
    f_equal. apply IH. exact Hhex.
Qed.

Lemma byte_pairs_app (o rest : str) :
  Nat.even (List.length o) = true ->
  byte_pairs (o ++ rest) = byte_pairs o ++ byte_pairs rest.
Proof.
  induction o as [| c | c1 c2 t IH] using pair_induction; intros He.
  - reflexivity.
  - discriminate He.
  - change ((c1 :: c2 :: t) ++ rest) with (c1 :: c2 :: (t ++ rest)).
    cbn [byte_pairs]. rewrite IH by exact He. reflexivity.
Qed.

Lemma uuid_bytes_hex (octets : list str) :
  big_endian a = false ->
  forallb is_hex (List.concat octets) = true ->
  forallb (fun o => Nat.even (List.length o)) octets = true ->
  uuid_bytes a octets = byte_pairs (List.concat octets).
Proof.
  intros Hle. unfold uuid_bytes.
  induction octets as [|o r IH]; intros Hhex Heven.
  - reflexivity.
  - cbn [List.concat map forallb] in *.
    rewrite forallb_app in Hhex.
    apply andb_true_iff in Hhex. destruct Hhex as [Hh1 Hh2].
    apply andb_true_iff in Heven. destruct Heven as [He1 He2].
    rewrite byte_pairs_app by exact He1.
    rewrite octet_bytes_hex by assumption.
    rewrite IH by assumption. reflexivity.
Qed.

Lemma pair_count_concat (octets : list str) :
  2 * pair_count octets <= Z.of_nat (List.length (List.concat octets)).
Proof.
  induction octets as [|o r IH].
  - cbn. lia.
  - cbn [pair_count fold_right List.concat]. fold (pair_count r).
    rewrite length_app, Nat2Z.inj_add.
    pose proof (Z.div_mod (Z.of_nat (List.length o)) 2 ltac:(lia)).
    pose proof (Z.mod_pos_bound (Z.of_nat (List.length o)) 2 ltac:(lia)).
    lia.
Qed.

Lemma pair_count_nonneg (octets : list str) : 0 <= pair_count octets.
Proof. rewrite (pair_count_bytes a). lia. Qed.

(** A store of the device handler leaves the array exactly when more
    than sixteen pairs are read. *)
Lemma device_guid_out_of_bounds (uuid : str) :
  (exists i, ipmi_app_get_device_guid a (Uuid uuid) = OutOfBounds i)
  <-> 16 < pair_count (strtok_all uuid (lit "-")).
Proof.
  destruct (strtok_all uuid (lit "-")) as [|o r] eqn:Ho.
  - unfold ipmi_app_get_device_guid. rewrite Ho. cbn [pair_count fold_right].
    split; [intros [i H]; discriminate H | lia].
  - assert (Hne : strtok_all uuid (lit "-") <> [])
      by (rewrite Ho; discriminate).
    rewrite device_guid_spec by exact Hne. rewrite Ho.
    destruct (Z.leb_spec (pair_count (o :: r)) 16) as [Hc|Hc].
    + split; [intros [i H]; discriminate H | lia].
    + split; [intros _; exact Hc | intros _; exists (-1); reflexivity].
Qed.

End Octets.

(** C4. On a property value with 33 hexadecimal digits the system
    handler does not answer with the invalid-length error: 33 / 2 is 16,
    the length test lets the value through, and the seventeenth turn of
    the loop stores outside the 16-byte array. *)
Theorem sys_guid_accepts_33_digits :
  forall a : abi,
    List.length (remove_char "-" Sample.uuid_33) = 33%nat
    /\ Guid.ipmi_app_get_sys_guid a (Some Sample.uuid_33)
       = Guid.OutOfBounds (CInt.to_size_t a (-1))
    /\ Guid.in_bounds (CInt.to_size_t a (-1)) = false
    /\ Guid.ipmi_app_get_sys_guid a (Some Sample.uuid_33)
       <> Guid.Failed IPMI_CC_RESPONSE_ERROR.
Proof.
  intros a. split; [reflexivity|].
  assert (H : Guid.ipmi_app_get_sys_guid a (Some Sample.uuid_33)
              = Guid.OutOfBounds (CInt.to_size_t a (-1)))
    by (apply sys_guid_33; reflexivity).
  split; [exact H|]. split; [|rewrite H; discriminate].
  pose proof (to_size_t_minus_one a).
  unfold Guid.in_bounds. apply andb_false_iff. right. apply Z.ltb_ge. lia.
Qed.

(** C7. For every text that holds 32 hexadecimal digits once its
    hyphens are removed, the system handler answers with 16 bytes in
    which the k-th pair of digits, counted from the left, is at index
    15 - k: the first pair at index 15, the last at index 0. On a
    little-endian host the device handler gives the same 16 bytes when
    every hyphen-separated group has an even number of digits. *)
Theorem guid_pairs_written_back_to_front :
  forall (a : abi) (text : str),
    Guid.guid_text text ->
    let g := remove_char "-" text in
    exists data : Guid.buffer,
      Guid.ipmi_app_get_sys_guid a (Some text) = Guid.Sent IPMI_CC_OK data
      /\ data = map Some (rev (Guid.byte_pairs g))
      /\ List.length data = 16%nat
      /\ (forall k : nat, (k < 16)%nat ->
            nth (15 - k) data None
            = Some (Guid.hex_val (nth (2 * k) g NUL) * 16
                    + Guid.hex_val (nth (2 * k + 1) g NUL)))
      /\ (big_endian a = false -> Guid.even_groups text ->
            Guid.ipmi_app_get_device_guid a (Guid.Uuid text)
            = Guid.Sent IPMI_CC_OK data).
Proof.
  intros a text [Hlen Hhex] g. fold g in Hlen, Hhex.
  assert (Heven : Nat.even (List.length g) = true)
    by (rewrite Hlen; reflexivity).
  assert (Hn : List.length (Guid.byte_pairs g) = 16%nat).
  { pose proof (byte_pairs_length g Heven). lia. }
  exists (map Some (rev (Guid.byte_pairs g))).
  split; [apply sys_guid_32; assumption|].
  split; [reflexivity|].
  split; [rewrite length_map, length_rev; exact Hn|].
  split.
  - intros k Hk.
    rewrite (nth_indep _ None (Some 0))
      by (rewrite length_map, length_rev; lia).
    rewrite (map_nth Some (rev (Guid.byte_pairs g)) 0 (15 - k)).
    rewrite rev_nth by lia. rewrite Hn.
    replace (16 - S (15 - k))%nat with k by lia.
    rewrite nth_byte_pairs by lia. reflexivity.
  - intros Hle Hgroups. unfold Guid.even_groups in Hgroups.
    assert (Hcat : List.concat (Guid.strtok_all text (lit "-")) = g)
      by (apply strtok_all_concat; exact Hhex).
    assert (Hbytes : Guid.uuid_bytes a (Guid.strtok_all text (lit "-"))
                     = Guid.byte_pairs g).
    { rewrite <- Hcat. apply uuid_bytes_hex; try assumption.
      rewrite Hcat. exact Hhex. }
    assert (Hne : Guid.strtok_all text (lit "-") <> []).
    { intros E. rewrite E in Hcat. cbn in Hcat. rewrite <- Hcat in Hlen.
      discriminate Hlen. }
    rewrite device_guid_spec by exact Hne.
    rewrite (pair_count_bytes a), Hbytes, Hn.
    reflexivity.
Qed.

Lemma guid_pairs_written_back_to_front_witness :
  Guid.ipmi_app_get_sys_guid arm_eabi (Some Sample.uuid)
  = Guid.Sent IPMI_CC_OK Sample.uuid_wire
  /\ Guid.ipmi_app_get_device_guid arm_eabi (Guid.Uuid Sample.uuid)
     = Guid.Sent IPMI_CC_OK Sample.uuid_wire.
Proof.
  destruct (guid_pairs_written_back_to_front arm_eabi Sample.uuid
              (conj eq_refl eq_refl))
    as (data & Hsys & Hdata & _ & _ & Hdev).
  rewrite Hsys, (Hdev eq_refl eq_refl), Hdata.
  split; reflexivity.
Defined.

(** C10, as the code has it. With [n] hexadecimal digits left after
    the hyphens are removed: the system handler reaches its loop for
    [n = 32] and [n = 33] only, stays inside the array for 32 and
    stores at index [SIZE_MAX] for 33; the device handler stores outside
    the array (at index -1) exactly when its octet strings hold more
    than sixteen pairs, which cannot happen for [n <= 32]. *)
Theorem guid_write_index_bounds :
  forall (a : abi) (text : str),
    forallb Guid.is_hex (remove_char "-" text) = true ->
    let n := List.length (remove_char "-" text) in
    (n = 32%nat ->
       exists data, Guid.ipmi_app_get_sys_guid a (Some text)
                    = Guid.Sent IPMI_CC_OK data)
    /\ (n = 33%nat ->
          Guid.ipmi_app_get_sys_guid a (Some text)
          = Guid.OutOfBounds (CInt.to_size_t a (-1))
          /\ Guid.in_bounds (CInt.to_size_t a (-1)) = false)
    /\ (n <> 32%nat -> n <> 33%nat ->
          Guid.ipmi_app_get_sys_guid a (Some text)
          = Guid.Failed IPMI_CC_RESPONSE_ERROR)
    /\ ((exists i, Guid.ipmi_app_get_device_guid a (Guid.Uuid text)
                   = Guid.OutOfBounds i)
        <-> 16 < Guid.pair_count (Guid.strtok_all text (lit "-")))
    /\ (Guid.ipmi_app_get_device_guid a (Guid.Uuid text) = Guid.OutOfBounds (-1)
        \/ forall i, Guid.ipmi_app_get_device_guid a (Guid.Uuid text)
                     <> Guid.OutOfBounds i)
    /\ ((n <= 32)%nat ->
          Guid.pair_count (Guid.strtok_all text (lit "-")) <= 16).
Proof.
  intros a text Hhex n.
  split; [|split; [|split; [|split; [|split]]]].
  - intros Hn. eexists. apply sys_guid_32; assumption.
  - intros Hn. split; [apply sys_guid_33; assumption|].
    pose proof (to_size_t_minus_one a).
    unfold Guid.in_bounds. apply andb_false_iff. right. apply Z.ltb_ge. lia.
  - intros H32 H33. apply sys_guid_length_test. split; assumption.
  - apply device_guid_out_of_bounds.
  - destruct (Guid.strtok_all text (lit "-")) as [|o r] eqn:Ho.
    + right. intros i. unfold Guid.ipmi_app_get_device_guid. rewrite Ho.
      discriminate.
    + assert (Hne : Guid.strtok_all text (lit "-") <> [])
        by (rewrite Ho; discriminate).
      rewrite device_guid_spec by exact Hne.
      destruct (Guid.pair_count (Guid.strtok_all text (lit "-")) <=? 16).
      * right. intros i. discriminate.
      * left. reflexivity.
  - intros Hn.
    pose proof (pair_count_concat (Guid.strtok_all text (lit "-"))) as H.
    rewrite strtok_all_concat in H by exact Hhex. fold n in H. lia.
Qed.

Lemma guid_write_index_bounds_witness :
  Guid.ipmi_app_get_sys_guid arm_eabi (Some Sample.uuid_33)
  = Guid.OutOfBounds (2 ^ 32 - 1)
  /\ ((exists i, Guid.ipmi_app_get_device_guid arm_eabi
                   (Guid.Uuid Sample.uuid_33) = Guid.OutOfBounds i)
      <-> 16 < Guid.pair_count (Guid.strtok_all Sample.uuid_33 (lit "-"))).
Proof.
  destruct (guid_write_index_bounds arm_eabi Sample.uuid_33 eq_refl)
    as (_ & H33 & _ & Hdev & _).
  destruct (H33 eq_refl) as [Hsys _].
  split; [exact Hsys | exact Hdev].
Defined.

(** The device handler on 34 digits in even groups: seventeen pairs,
    the last store is at index -1. *)
Example device_guid_34_digits :
  Guid.pair_count (Guid.strtok_all Sample.uuid_34 (lit "-")) = 17
  /\ Guid.ipmi_app_get_device_guid arm_eabi (Guid.Uuid Sample.uuid_34)
     = Guid.OutOfBounds (-1).
Proof. split; reflexivity. Qed.

(** C10 as stated fails for the device handler: 33 hexadecimal digits
    in one group are more than 32, the loop is reached, and yet every
    store is inside the array: [strlen / 2] drops the odd last digit
    and the handler answers with 16 bytes. *)
Lemma device_guid_33_digits_stay_in_bounds :
  List.length (remove_char "-" Sample.uuid_33_plain) = 33%nat
  /\ forallb Guid.is_hex (remove_char "-" Sample.uuid_33_plain) = true
  /\ Guid.strtok_all Sample.uuid_33_plain (lit "-") = [Sample.uuid_33_plain]
  /\ Guid.ipmi_app_get_device_guid arm_eabi (Guid.Uuid Sample.uuid_33_plain)
     = Guid.Sent IPMI_CC_OK Sample.uuid_wire.
Proof.
  repeat split.
Qed.

(* ================================================================== *)
(** * Further properties of the code                                   *)
(* ================================================================== *)

(** ** tokenize *)

Section Tokens.

Import Words.

Variable token : str.

Lemma tokenize_from_chars (s cur t : str) (c : ascii) :
  (forall x, In x cur -> mem x token = false) ->
  In t (tokenize_from token s cur) -> In c t ->
  mem c token = false /\ (In c cur \/ In c s).
Proof.
  revert cur. induction s as [|x r IH]; intros cur Hcur Ht Hc.
  - cbn in Ht. destruct Ht as [<-|[]].
    apply in_rev in Hc. split; [apply Hcur; exact Hc | left; exact Hc].
  - cbn [tokenize_from] in Ht. destruct (mem x token) eqn:Hx.
    + destruct Ht as [<-|Ht].
      * apply in_rev in Hc. split; [apply Hcur; exact Hc | left; exact Hc].
      * destruct r as [|y r']; [destruct Ht|].
        destruct (IH [] (fun _ F => match F with end) Ht Hc) as [H1 [[]|H2]].
        split; [exact H1 | right; right; exact H2].
    + assert (Hcur' : forall z, In z (x :: cur) -> mem z token = false).
      { intros z [<-|Hz]; [exact Hx | apply Hcur; exact Hz]. }
      destruct (IH (x :: cur) Hcur' Ht Hc) as [H1 [[<-|H2]|H2]].
      * split; [exact H1 | right; left; reflexivity].
      * split; [exact H1 | left; exact H2].
      * split; [exact H1 | right; right; exact H2].
Qed.

Lemma tokenize_chars (s t : str) (c : ascii) :
  In t (tokenize s token) -> In c t -> mem c token = false /\ In c s.
Proof.
  intros Ht Hc. destruct s as [|x r]; [destruct Ht|].
  destruct (tokenize_from_chars (x :: r) [] t c
              (fun _ F => match F with end) Ht Hc) as [H1 [[]|H2]].
  split; assumption.
Qed.

Lemma tokenize_from_concat (s cur : str) :
  List.concat (tokenize_from token s cur) = List.rev cur ++ strip token s.
Proof.
  revert cur. induction s as [|x r IH]; intros cur.
  - cbn. rewrite app_nil_r. reflexivity.
  - cbn [tokenize_from]. unfold strip in *. cbn [filter].
    destruct (mem x token) eqn:Hx; cbn [negb].
    + cbn [List.concat]. destruct r as [|y r'].
      * reflexivity.
      * rewrite IH. reflexivity.
    + rewrite IH. cbn [List.rev]. rewrite <- app_assoc. reflexivity.
Qed.

Lemma ends_in_cons (x y : ascii) (r : str) :
  ends_in token (x :: y :: r) = ends_in token (y :: r).
Proof. reflexivity. Qed.

Lemma tokenize_from_length (s cur : str) :
  List.length (tokenize_from token s cur)
  = (count_delim token s + if ends_in token s then 0 else 1)%nat.
Proof.
  revert cur. induction s as [|x r IH]; intros cur.
  - reflexivity.
  - cbn [tokenize_from]. unfold count_delim in *. cbn [filter].
    destruct (mem x token) eqn:Hx.
    + cbn [List.length]. destruct r as [|y r'].
      * cbn [ends_in]. rewrite Hx. reflexivity.
      * rewrite IH, ends_in_cons. reflexivity.
    + rewrite IH. destruct r as [|y r'].
      * cbn [ends_in]. rewrite Hx. reflexivity.
      * rewrite ends_in_cons. reflexivity.
Qed.

End Tokens.

(** X1. No token returned by [tokenize] contains a delimiter, every
    character of a token is a character of the input, and the tokens
    put end to end are the input without its delimiters: nothing else
    is dropped and the order is kept. *)
Theorem tokenize_keeps_all_but_delimiters :
  forall (s token : str),
    List.concat (tokenize s token) = Words.strip token s
    /\ forall t c, In t (tokenize s token) -> In c t ->
         mem c token = false /\ In c s.
Proof.
  intros s token. split.
  - destruct s as [|x r]; [reflexivity|].
    unfold tokenize. rewrite tokenize_from_concat. reflexivity.
  - intros t c. apply tokenize_chars.
Qed.

(** X2. [tokenize] returns no token for the empty string; otherwise
    one token per delimiter, plus one unless the string ends in a
    delimiter: consecutive and leading delimiters give empty tokens, a
    trailing one gives none. *)
Theorem tokenize_count :
  forall (s token : str),
    List.length (tokenize s token)
    = match s with
      | [] => 0%nat
      | _ :: _ =>
          (Words.count_delim token s
           + if Words.ends_in token s then 0 else 1)%nat
      end.
Proof.
  intros s token. destruct s as [|x r]; [reflexivity|].
  unfold tokenize. apply tokenize_from_length.
Qed.

(** ** convert_version, statement by statement *)

Section ParserSteps.

Import Version.

Variable a : abi.

(** Dropping the low byte of a left shift by eight. *)
Lemma low_byte_of_shift8 (x : Z) :
  CInt.to_u8 (CInt.to_u32 (Z.shiftl x 8)) = 0.
Proof.
  unfold CInt.to_u8, CInt.to_u32.
  rewrite Z.mod_mod_divide by (exists (2 ^ 24); reflexivity).
  rewrite Z.shiftl_mul_pow2 by lia. apply Z.mod_mul. lia.
Qed.

Lemma parse_major_frame (tokens : list str) (l l' : locals) (u : unit) :
  parse_major a tokens l = Val u l' ->
  has_release l' = has_release l /\ aux (rev l') = aux (rev l)
  /\ minor (rev l') = minor (rev l).
Proof.
  unfold parse_major. destruct tokens as [|t0 r].
  - intros H. inversion H. repeat split.
  - unfold bind, call_stoi. destruct (stoi _ _) as [v|e]; intros H.
    + inversion H. repeat split.
    + discriminate H.
Qed.

(** The release block: skipped, or [has_release] is set and [aux32]
    holds the clamped release number shifted by eight. *)
Lemma parse_release_spec (minortok : list str) (l l' : locals) (u : unit) :
  parse_release minortok l = Val u l' ->
  ((size minortok <= TOKEN_MINOR_REL)%nat /\ l' = l)
  \/ ((TOKEN_MINOR_REL < size minortok)%nat /\ has_release l' = true
      /\ exists rel,
           stoi (at_ minortok TOKEN_MINOR_REL) BCD_BASE = StoiOk rel
           /\ aux (rev l')
              = CInt.be32_bytes
                  (CInt.to_u32
                     (Z.shiftl
                        (CInt.to_u32
                           (if rel >? AUX_MAX_RELEASE
                            then AUX_MAX_RELEASE else rel))
                        AUX_RELEASE_SHIFT))).
Proof.
  unfold parse_release.
  destruct (Nat.ltb_spec TOKEN_MINOR_REL (size minortok)) as [Hlt|Hge].
  - unfold bind, call_stoi.
    destruct (stoi _ _) as [rel|e]; intros H; [|discriminate H].
    inversion H. right. split; [exact Hlt|]. split; [reflexivity|].
    exists rel. split; reflexivity.
  - intros H. inversion H. left. split; [exact Hge | reflexivity].
Qed.

(** The patch block: skipped, or byte 3 holds the clamped patch level
    shifted by one; the other bytes and [has_release] stay. *)
Lemma parse_patch_spec (minortok : list str) (l l' : locals) (u : unit) :
  parse_patch minortok l = Val u l' ->
  ((size minortok <= TOKEN_MINOR_PATCH)%nat /\ l' = l)
  \/ ((TOKEN_MINOR_PATCH < size minortok)%nat
      /\ has_release l' = has_release l
      /\ firstn 3 (aux (rev l')) = firstn 3 (aux (rev l))
      /\ exists pl,
           stoi (at_ minortok TOKEN_MINOR_PATCH) 10 = StoiOk pl
           /\ aux3 (rev l')
              = CInt.to_u8
                  (Z.shiftl
                     (CInt.to_u8
                        (if pl >? AUX_MAX_PATCH then AUX_MAX_PATCH else pl))
                     AUX_REL_PATCH_SHIFT)).
Proof.
  unfold parse_patch.
  destruct (Nat.ltb_spec TOKEN_MINOR_PATCH (size minortok)) as [Hlt|Hge].
  - unfold bind, call_stoi.
    destruct (stoi _ _) as [pl|e]; intros H; [|discriminate H].
    inversion H. right. split; [exact Hlt|]. repeat split.
    exists pl. split; reflexivity.
  - intros H. inversion H. left. split; [exact Hge | reflexivity].
Qed.

(** The minor block as a whole. *)
Lemma parse_minor_spec (tokens : list str) (l l' : locals) (u : unit) :
  parse_minor a tokens l = Val u l' ->
  (has_release l' = has_release l /\ aux (rev l') = aux (rev l))
  \/ (has_release l' = true
      /\ (TOKEN_MINOR < size tokens)%nat
      /\ exists rel,
           stoi (at_ (tokenize (at_ tokens TOKEN_MINOR) (lit "rp"))
                     TOKEN_MINOR_REL) BCD_BASE = StoiOk rel
           /\ firstn 3 (aux (rev l'))
              = firstn 3
                  (CInt.be32_bytes
                     (CInt.to_u32
                        (Z.shiftl
                           (CInt.to_u32
                              (if rel >? AUX_MAX_RELEASE
                               then AUX_MAX_RELEASE else rel))
                           AUX_RELEASE_SHIFT)))
           /\ Z.testbit (aux3 (rev l')) 0 = false).
Proof.
  unfold parse_minor.
  destruct (Nat.ltb_spec TOKEN_MINOR (size tokens)) as [Hlt|Hge].
  - unfold bind at 1 2, call_stoi.
    destruct (stoi (at_ tokens TOKEN_MINOR) BCD_BASE) as [v|e];
      [|intros H; discriminate H].
    cbn [set_minor upd_rev].
    set (l1 := mkLocals _ (has_release l)).
    set (minortok := tokenize (at_ tokens TOKEN_MINOR) (lit "rp")).
    unfold bind.
    destruct (parse_release minortok l1) as [u1 l2|e1 l2] eqn:Hrel;
      [|intros H; discriminate H].
    intros Hpatch.
    destruct (parse_release_spec _ _ _ _ Hrel)
      as [[Hs ->] | (Hs & Hr & rel & Hstoi & Haux)].
    + destruct (parse_patch_spec _ _ _ _ Hpatch)
        as [[_ ->] | (Hs' & _)].
      * left. split; reflexivity.
      * unfold TOKEN_MINOR_REL, TOKEN_MINOR_PATCH in *. lia.
    + right. split; [|split; [exact Hlt|]].
      * destruct (parse_patch_spec _ _ _ _ Hpatch)
          as [[_ ->] | (_ & Hr' & _)]; [exact Hr | rewrite Hr'; exact Hr].
      * exists rel. split; [exact Hstoi|].
        destruct (parse_patch_spec _ _ _ _ Hpatch)
          as [[_ ->] | (_ & _ & H3 & pl & _ & Hb)].
        -- split; [rewrite Haux; reflexivity|].
           assert (H3' : aux3 (rev l2) = nth 3 (aux (rev l2)) 0) by reflexivity.
           rewrite H3', Haux. cbn [CInt.be32_bytes nth].
           unfold AUX_RELEASE_SHIFT. rewrite low_byte_of_shift8. reflexivity.
        -- split; [rewrite H3, Haux; reflexivity|].
           rewrite Hb. unfold CInt.to_u8 at 1, AUX_REL_PATCH_SHIFT.
           rewrite Z.mod_pow2_bits_low by lia.
           apply Z.shiftl_spec_low. lia.
  - intros H. inversion H. left. split; reflexivity.
Qed.

(** The hash block: skipped when the release form was selected or there
    are at most three tokens; otherwise [aux32] holds the hash shifted
    by eight. *)
Lemma parse_hash_spec (tokens : list str) (l l' : locals) (u : unit) :
  parse_hash tokens l = Val u l' ->
  has_release l' = has_release l
  /\ ((has_release l = true \/ (size tokens <= TOKEN_HASH)%nat) /\ l' = l
      \/ (has_release l = false /\ aux3 (rev l') = 0)).
Proof.
  unfold parse_hash, bind, get_has_release.
  destruct (has_release l) eqn:Hr; cbn [negb andb].
  - intros H. inversion H. subst l'. split; [exact Hr|].
    left. split; [left; reflexivity | reflexivity].
  - destruct (Nat.ltb_spec TOKEN_HASH (size tokens)) as [Hlt|Hge].
    + unfold call_stoi.
      destruct (stoi _ _) as [h|e]; intros H; [|discriminate H].
      inversion H. cbn [has_release rev aux3]. split; [exact Hr|].
      right. split; [reflexivity|].
      unfold AUX_HASH_SHIFT, AUX_RELEASE_SHIFT. apply low_byte_of_shift8.
    + intros H. inversion H. subst l'. split; [exact Hr|].
      left. split; [right; exact Hge | reflexivity].
Qed.

Lemma mark_dirty_spec (dirty : bool) (l : locals) :
  exists l',
    mark_dirty dirty l = Val tt l'
    /\ has_release l' = has_release l
    /\ major (rev l') = major (rev l) /\ minor (rev l') = minor (rev l)
    /\ firstn 3 (aux (rev l')) = firstn 3 (aux (rev l))
    /\ aux3 (rev l')
       = CInt.to_u8 (Z.lor (aux3 (rev l)) (Z.shiftl (b2z dirty) AUX_DIRTY_SHIFT)).
Proof.
  eexists. unfold mark_dirty, bind, get_aux3, set_aux3, upd_rev.
  split; [reflexivity|]. repeat split.
Qed.

(** A successful call, cut into its four statements. *)
Lemma convert_version_steps (p : str) (l : locals) :
  convert_version a p = Returned 0 l ->
  let s := cut_v (c_str p) in
  let tokens := tokenize s (lit ".-") in
  exists l1 l2 l3,
    parse_major a tokens (mkLocals rev_zero false) = Val tt l1
    /\ parse_minor a tokens l1 = Val tt l2
    /\ parse_hash tokens l2 = Val tt l3
    /\ mark_dirty (contains (lit "dirty") s) l3 = Val tt l.
Proof.
  intros H. cbv zeta. unfold convert_version in H. cbv zeta in H.
  destruct (cut_v (c_str p)) as [|c r]; [discriminate H|].
  set (tokens := tokenize (c :: r) (lit ".-")) in *.
  unfold bind in H.
  destruct (parse_major a tokens _) as [[] l1|e1 l1] eqn:H1; [|discriminate H].
  destruct (parse_minor a tokens l1) as [[] l2|e2 l2] eqn:H2; [|discriminate H].
  destruct (parse_hash tokens l2) as [[] l3|e3 l3] eqn:H3; [|discriminate H].
  destruct (mark_dirty_spec (contains (lit "dirty") (c :: r)) l3)
    as (l4 & H4 & _).
  rewrite H4 in H. inversion H. subst l4.
  exists l1, l2, l3. repeat split; assumption.
Qed.

End ParserSteps.

(** ** std::stoi on text without a minus sign *)

Section NoMinus.

Lemma c_str_incl (s : str) (c : ascii) : In c (c_str s) -> In c s.
Proof.
  induction s as [|x r IH]; cbn [c_str]; [intros []|].
  destruct (Ascii.eqb x NUL); [intros []|].
  intros [<-|H]; [left; reflexivity | right; apply IH; exact H].
Qed.

Lemma skip_space_incl (s : str) (c : ascii) : In c (skip_space s) -> In c s.
Proof.
  induction s as [|x r IH]; cbn [skip_space]; [intros []|].
  destruct (isspace x); [intros H; right; apply IH; exact H | intros H; exact H].
Qed.

Lemma digit_in_nonneg (base : Z) (c : ascii) (d : Z) :
  digit_in base c = Some d -> 0 <= d.
Proof.
  unfold digit_in, digit_of.
  set (n := Z.of_nat (nat_of_ascii c)).
  destruct ((48 <=? n) && (n <=? 57)) eqn:H1.
  - apply andb_true_iff in H1. destruct H1 as [H1 _]. apply Z.leb_le in H1.
    destruct (n - 48 <? base); intros H; inversion H. lia.
  - destruct ((97 <=? n) && (n <=? 122)) eqn:H2.
    + apply andb_true_iff in H2. destruct H2 as [H2 _]. apply Z.leb_le in H2.
      destruct (n - 97 + 10 <? base); intros H; inversion H. lia.
    + destruct ((65 <=? n) && (n <=? 90)) eqn:H3; [|discriminate].
      apply andb_true_iff in H3. destruct H3 as [H3 _]. apply Z.leb_le in H3.
      destruct (n - 65 + 10 <? base); intros H; inversion H. lia.
Qed.

Lemma digits_nonneg (base : Z) (s : str) :
  0 <= base ->
  forall acc n, 0 <= acc -> 0 <= fst (digits base s acc n).
Proof.
  intros Hb. induction s as [|c r IH]; intros acc n Hacc; cbn [digits].
  - exact Hacc.
  - destruct (digit_in base c) as [d|] eqn:Hd; [|exact Hacc].
    apply IH. pose proof (digit_in_nonneg _ _ _ Hd). nia.
Qed.

Lemma subject_nonneg (base : Z) (s : str) (v : Z) :
  0 <= base ->
  (forall c, In c s -> Ascii.eqb c "-" = false) ->
  subject base s = Some v -> 0 <= v.
Proof.
  intros Hb Hs. unfold subject.
  assert (Hs1 : forall c, In c (skip_space s) -> Ascii.eqb c "-" = false).
  { intros c Hc. apply Hs, skip_space_incl, Hc. }
  destruct (skip_space s) as [|c r].
  - cbn. discriminate.
  - rewrite (Hs1 c (or_introl eq_refl)).
    assert (Hplain : forall s2 w,
              match digits base s2 0 0 with
              | (_, O) => None
              | (v0, S _) => Some v0
              end = Some w -> 0 <= w).
    { intros s2 w. pose proof (digits_nonneg base s2 Hb 0 0%nat ltac:(lia)) as Hd.
      destruct (digits base s2 0 0) as [v0 [|k]]; [discriminate|].
      intros H. inversion H. subst. exact Hd. }
    assert (Hx : forall s2 w,
              match digits base s2 0 0 with
              | (_, O) => Some 0
              | (v0, S _) => Some v0
              end = Some w -> 0 <= w).
    { intros s2 w. pose proof (digits_nonneg base s2 Hb 0 0%nat ltac:(lia)) as Hd.
      destruct (digits base s2 0 0) as [v0 [|k]]; intros H; inversion H; subst.
      - lia.
      - exact Hd. }
    destruct (Ascii.eqb c "+").
    + destruct r as [|z [|x r']]; try apply Hplain.
      destruct ((base =? 16) && Ascii.eqb z "0" && is_x x);
        [apply Hx | apply Hplain].
    + destruct r as [|x r']; try apply Hplain.
      destruct ((base =? 16) && Ascii.eqb c "0" && is_x x);
        [apply Hx | apply Hplain].
Qed.

Lemma stoi_nonneg (base : Z) (s : str) (v : Z) :
  0 <= base ->
  (forall c, In c s -> Ascii.eqb c "-" = false) ->
  stoi s base = StoiOk v -> 0 <= v.
Proof.
  intros Hb Hs. unfold stoi.
  destruct (subject base (c_str s)) as [w|] eqn:Hsub; [|discriminate].
  destruct ((CInt.INT_MIN <=? w) && (w <=? CInt.INT_MAX)); [|discriminate].
  intros H. inversion H. subst w.
  apply (subject_nonneg base (c_str s)); try assumption.
  intros c Hc. apply Hs, c_str_incl, Hc.
Qed.

Lemma stoi_ok_nonempty (base : Z) (v : Z) : stoi [] base <> StoiOk v.
Proof. discriminate. Qed.

End NoMinus.

(** ** convert_version as a whole *)

Section ParserResults.

Import Version.

Variable a : abi.

Lemma aux3_of_aux (r r' : rev_t) : aux r = aux r' -> aux3 r = aux3 r'.
Proof. unfold aux. intros H. inversion H. reflexivity. Qed.

(** Before the dirty flag is stored, bit 0 of byte 3 is clear. *)
Lemma aux3_even_before_dirty (tokens : list str) (l1 l2 l3 : locals) :
  parse_major a tokens (mkLocals rev_zero false) = Val tt l1 ->
  parse_minor a tokens l1 = Val tt l2 ->
  parse_hash tokens l2 = Val tt l3 ->
  Z.testbit (aux3 (rev l3)) 0 = false.
Proof.
  intros H1 H2 H3.
  destruct (parse_major_frame a _ _ _ _ H1) as (_ & Ha1 & _).
  assert (E2 : Z.testbit (aux3 (rev l2)) 0 = false).
  { destruct (parse_minor_spec a _ _ _ _ H2)
      as [[_ Ha2] | (_ & _ & rel & _ & _ & Hb)]; [|exact Hb].
    rewrite (aux3_of_aux _ _ Ha2), (aux3_of_aux _ _ Ha1). reflexivity. }
  destruct (parse_hash_spec _ _ _ _ H3) as (_ & [[_ ->] | [_ Hz]]).
  - exact E2.
  - rewrite Hz. reflexivity.
Qed.

(** In hash form nothing but zero is in byte 3 before the dirty flag. *)
Lemma aux3_zero_in_hash_form (tokens : list str) (l1 l2 l3 : locals) :
  parse_major a tokens (mkLocals rev_zero false) = Val tt l1 ->
  parse_minor a tokens l1 = Val tt l2 ->
  parse_hash tokens l2 = Val tt l3 ->
  has_release l3 = false ->
  aux3 (rev l3) = 0
  /\ ((size tokens <= TOKEN_HASH)%nat -> aux (rev l3) = [0; 0; 0; 0]).
Proof.
  intros H1 H2 H3 Hr.
  destruct (parse_major_frame a _ _ _ _ H1) as (Hr1 & Ha1 & _).
  destruct (parse_hash_spec _ _ _ _ H3) as (Hr3 & Hh).
  rewrite Hr3 in Hr.
  destruct (parse_minor_spec a _ _ _ _ H2)
    as [[_ Ha2] | (Hr2 & _)]; [|rewrite Hr2 in Hr; discriminate Hr].
  assert (Hz : aux (rev l2) = [0; 0; 0; 0])
    by (rewrite Ha2, Ha1; reflexivity).
  destruct Hh as [[_ ->] | [_ Hz3]].
  - split; [rewrite (aux3_of_aux (rev l2) rev_zero Hz); reflexivity
           | intros _; exact Hz].
  - split; [exact Hz3|].
    intros Hsize. revert H3. unfold parse_hash, bind, get_has_release.
    rewrite Hr. cbn [negb andb].
    destruct (Nat.ltb_spec TOKEN_HASH (size tokens)) as [Hlt|_]; [lia|].
    intros H. inversion H. subst l3. exact Hz.
Qed.

End ParserResults.

(** X3. Whenever [convert_version] returns 0, bit 0 of aux byte 3 is
    set exactly when the text behind the first 'v' contains "dirty":
    no other statement of the parser leaves that bit set. *)
Theorem convert_version_dirty_bit :
  forall (a : abi) (p : str) (l : Version.locals),
    Version.convert_version a p = Version.Returned 0 l ->
    Z.testbit (Version.aux3 (Version.rev l)) 0
    = contains (lit "dirty") (Version.cut_v (c_str p)).
Proof.
  intros a p l H.
  destruct (convert_version_steps a p l H) as (l1 & l2 & l3 & H1 & H2 & H3 & H4).
  pose proof (aux3_even_before_dirty a _ _ _ _ H1 H2 H3) as Heven.
  destruct (mark_dirty_spec (contains (lit "dirty") (Version.cut_v (c_str p))) l3)
    as (l4 & H4' & _ & _ & _ & _ & Hb).
  rewrite H4 in H4'. inversion H4'. subst l4.
  rewrite Hb. unfold CInt.to_u8, Version.AUX_DIRTY_SHIFT.
  rewrite Z.mod_pow2_bits_low by lia.
  rewrite Z.lor_spec, Heven, Z.shiftl_0_r.
  destruct (contains _ _); reflexivity.
Qed.

Lemma convert_version_dirty_bit_witness :
  Z.testbit 1 0 = contains (lit "dirty") (lit "0.6-19-gf363f61-dirty").
Proof.
  exact (convert_version_dirty_bit arm_eabi (lit "v0.6-19-gf363f61-dirty")
           (Version.mkLocals (Version.mkRev 0 6 0xf3 0x63 0xf6 1) false)
           eq_refl).
Defined.

(** X4. Whenever [convert_version] returns 0 without having selected
    the release form, aux byte 3 is the dirty flag alone (bits 1..7 are
    zero, as the header comment says of formats 1 and 2); with at most
    three tokens aux bytes 0..2 are zero as well. *)
Theorem convert_version_hash_form_byte3 :
  forall (a : abi) (p : str) (l : Version.locals),
    Version.convert_version a p = Version.Returned 0 l ->
    Version.has_release l = false ->
    Version.aux3 (Version.rev l)
    = Version.b2z (contains (lit "dirty") (Version.cut_v (c_str p)))
    /\ ((Version.size (tokenize (Version.cut_v (c_str p)) (lit ".-"))
         <= Version.TOKEN_HASH)%nat ->
        firstn 3 (Version.aux (Version.rev l)) = [0; 0; 0]).
Proof.
  intros a p l H Hr.
  destruct (convert_version_steps a p l H) as (l1 & l2 & l3 & H1 & H2 & H3 & H4).
  destruct (mark_dirty_spec (contains (lit "dirty") (Version.cut_v (c_str p))) l3)
    as (l4 & H4' & Hr4 & _ & _ & Ha4 & Hb).
  rewrite H4 in H4'. inversion H4'. subst l4.
  rewrite Hr4 in Hr.
  destruct (aux3_zero_in_hash_form a _ _ _ _ H1 H2 H3 Hr) as [Hz Hall].
  split.
  - rewrite Hb, Hz. destruct (contains _ _); reflexivity.
  - intros Hsize. rewrite Ha4, (Hall Hsize). reflexivity.
Qed.

Lemma convert_version_hash_form_byte3_witness :
  1 = Version.b2z (contains (lit "dirty") (lit "0.6-19-gf363f61-dirty")).
Proof.
  exact (proj1
           (convert_version_hash_form_byte3 arm_eabi
              (lit "v0.6-19-gf363f61-dirty")
              (Version.mkLocals (Version.mkRev 0 6 0xf3 0x63 0xf6 1) false)
              eq_refl eq_refl)).
Defined.

Section ReleaseNumber.

Import Version.

Lemma mem_dot_hyphen (c : ascii) :
  mem c (lit ".-") = false -> Ascii.eqb c "-" = false.
Proof.
  unfold mem, lit. cbn. intros H.
  apply orb_false_iff in H. destruct H as [_ H].
  apply orb_false_iff in H. destruct H as [H _]. exact H.
Qed.

(** A character of a token of a token of [s] is no hyphen. *)
Lemma minor_subtoken_has_no_minus (s : str) (i j : nat) (c : ascii) :
  In c (at_ (tokenize (at_ (tokenize s (lit ".-")) i) (lit "rp")) j) ->
  Ascii.eqb c "-" = false.
Proof.
  unfold at_. intros Hc.
  set (tokens := tokenize s (lit ".-")) in *.
  set (tok := nth i tokens []) in *.
  destruct (nth_in_or_default j (tokenize tok (lit "rp")) []) as [Hin|Hd];
    [|rewrite Hd in Hc; destruct Hc].
  destruct (tokenize_chars _ _ _ _ Hin Hc) as [_ Hc1].
  destruct (nth_in_or_default i tokens []) as [Hin1|Hd1];
    [|fold tok in Hd1; rewrite Hd1 in Hc1; destruct Hc1].
  destruct (tokenize_chars _ _ _ _ Hin1 Hc1) as [Hm _].
  apply mem_dot_hyphen. exact Hm.
Qed.

Lemma release_bytes (m : Z) :
  0 <= m <= AUX_MAX_RELEASE ->
  Words.of_be
    (firstn 3
       (CInt.be32_bytes
          (CInt.to_u32 (Z.shiftl (CInt.to_u32 m) AUX_RELEASE_SHIFT))))
  = m.
Proof.
  unfold AUX_MAX_RELEASE, AUX_RELEASE_SHIFT. intros Hm.
  unfold CInt.to_u32. rewrite (Z.mod_small m) by lia.
  rewrite Z.shiftl_mul_pow2 by lia.
  rewrite (Z.mod_small (m * 2 ^ 8)) by lia.
  unfold CInt.be32_bytes, CInt.to_u8. cbn [firstn].
  unfold Words.of_be. cbn [List.rev app Words.of_le].
  rewrite !Z.shiftr_div_pow2 by lia.
  change (2 ^ 8) with 256. change (2 ^ 16) with 65536.
  change (2 ^ 24) with 16777216.
  Z.div_mod_to_equations. lia.
Qed.

End ReleaseNumber.

(** X5. Whenever [convert_version] returns 0 with the release form
    selected, aux bytes 0..2, read as one big-endian number, are the
    release token read in base 16 and capped at 0x999999; the token
    cannot be negative, the text having been split at every hyphen. *)
Theorem convert_version_release_number :
  forall (a : abi) (p : str) (l : Version.locals),
    Version.convert_version a p = Version.Returned 0 l ->
    Version.has_release l = true ->
    exists rel : Z,
      stoi (Version.at_
              (tokenize
                 (Version.at_ (tokenize (Version.cut_v (c_str p)) (lit ".-"))
                    Version.TOKEN_MINOR)
                 (lit "rp"))
              Version.TOKEN_MINOR_REL) 16 = StoiOk rel
      /\ 0 <= rel
      /\ Words.of_be (firstn 3 (Version.aux (Version.rev l)))
         = Z.min rel Version.AUX_MAX_RELEASE.
Proof.
  intros a p l H Hr.
  destruct (convert_version_steps a p l H) as (l1 & l2 & l3 & H1 & H2 & H3 & H4).
  destruct (mark_dirty_spec (contains (lit "dirty") (Version.cut_v (c_str p))) l3)
    as (l4 & H4' & Hr4 & _ & _ & Ha4 & _).
  rewrite H4 in H4'. inversion H4'. subst l4.
  rewrite Hr4 in Hr.
  destruct (parse_hash_spec _ _ _ _ H3) as (Hr3 & Hh).
  rewrite Hr3 in Hr.
  destruct Hh as [[_ ->] | [Hf _]]; [|rewrite Hf in Hr; discriminate Hr].
  destruct (parse_major_frame a _ _ _ _ H1) as (Hr1 & _).
  destruct (parse_minor_spec a _ _ _ _ H2)
    as [[Hr2 _] | (_ & _ & rel & Hstoi & Hbytes & _)].
  - rewrite Hr2, Hr1 in Hr. discriminate Hr.
  - exists rel. split; [exact Hstoi|].
    assert (Hpos : 0 <= rel).
    { apply (stoi_nonneg Version.BCD_BASE _ _ ltac:(unfold Version.BCD_BASE; lia)
               (fun c Hc => minor_subtoken_has_no_minus _ _ _ c Hc) Hstoi). }
    split; [exact Hpos|].
    rewrite Ha4, Hbytes.
    replace (if rel >? Version.AUX_MAX_RELEASE
             then Version.AUX_MAX_RELEASE else rel)
      with (Z.min rel Version.AUX_MAX_RELEASE)
      by (destruct (Z.gtb_spec rel Version.AUX_MAX_RELEASE); lia).
    apply release_bytes. unfold Version.AUX_MAX_RELEASE in *. lia.
Qed.

Lemma convert_version_release_number_witness :
  exists rel : Z,
    stoi (lit "180608") 16 = StoiOk rel
    /\ 0 <= rel
    /\ Words.of_be [0x18; 0x06; 0x08] = Z.min rel 0x999999.
Proof.
  exact (convert_version_release_number arm_eabi
           (lit "v2.2r180608p10-g65edf7d-dirty")
           (Version.mkLocals (Version.mkRev 2 2 0x18 0x06 0x08 0x15) true)
           eq_refl eq_refl).
Defined.

Section VersionPrefix.

Lemma c_str_app (x s : str) :
  forallb (fun c => negb (Ascii.eqb c NUL)) x = true ->
  c_str (x ++ s) = x ++ c_str s.
Proof.
  induction x as [|c r IH]; intros Hx; [reflexivity|].
  cbn [forallb] in Hx. apply andb_true_iff in Hx. destruct Hx as [Hc Hr].
  apply negb_true_iff in Hc.
  cbn [app c_str]. rewrite Hc, IH by exact Hr. reflexivity.
Qed.

Lemma cut_v_app (x s : str) :
  forallb (fun c => negb (Ascii.eqb c "v")) x = true ->
  Version.cut_v (x ++ "v"%char :: s) = s.
Proof.
  unfold Version.cut_v.
  assert (H : forall x, forallb (fun c => negb (Ascii.eqb c "v")) x = true ->
            find_first_of (lit "v") (x ++ "v"%char :: s)
            = Some (List.length x)).
  { clear x. change (lit "v") with ["v"%char].
    induction x as [|c r IH]; intros Hx; [reflexivity|].
    cbn [forallb] in Hx. apply andb_true_iff in Hx. destruct Hx as [Hc Hr].
    apply negb_true_iff in Hc.
    cbn [app find_first_of]. unfold mem at 1. cbn [existsb].
    rewrite Hc. cbn [orb]. rewrite IH by exact Hr.
    reflexivity. }
  intros Hx. rewrite (H x Hx). unfold substr_from.
  replace (List.length x + 1)%nat with (List.length x + 1 + 0)%nat by lia.
  rewrite Nat.add_0_r.
  replace (List.length x + 1)%nat with (S (List.length x)) by lia.
  change ("v"%char :: s) with (["v"%char] ++ s).
  rewrite app_assoc.
  replace (S (List.length x)) with (List.length (x ++ ["v"%char]))
    by (rewrite length_app; cbn; lia).
  rewrite skipn_app, skipn_all, Nat.sub_diag. reflexivity.
Qed.

End VersionPrefix.

(** X6. Whatever precedes the first 'v' of the version text is thrown
    away together with it: the result is that of the text from the
    'v' on. In particular a text whose only 'v' is its last character
    (as in "1.0-dev") returns -1 with a cleared record. *)
Theorem convert_version_ignores_text_before_v :
  forall (a : abi) (x s : str),
    forallb (fun c => negb (Ascii.eqb c "v") && negb (Ascii.eqb c NUL)) x
    = true ->
    Version.convert_version a (x ++ "v"%char :: s)
    = Version.convert_version a ("v"%char :: s)
    /\ Version.convert_version a (x ++ ["v"%char])
       = Version.Returned (-1) (Version.mkLocals Version.rev_zero false).
Proof.
  intros a x s Hx.
  assert (Hv : forallb (fun c => negb (Ascii.eqb c "v")) x = true).
  { apply forallb_forall. intros c Hc.
    pose proof (proj1 (forallb_forall _ x) Hx c Hc) as H.
    apply andb_true_iff in H. apply H. }
  assert (Hn : forallb (fun c => negb (Ascii.eqb c NUL)) x = true).
  { apply forallb_forall. intros c Hc.
    pose proof (proj1 (forallb_forall _ x) Hx c Hc) as H.
    apply andb_true_iff in H. apply H. }
  assert (Hcut : forall t, Version.cut_v (c_str (x ++ "v"%char :: t))
                           = Version.cut_v (c_str ("v"%char :: t))).
  { intros t. rewrite c_str_app by exact Hn.
    change (c_str ("v"%char :: t)) with ("v"%char :: c_str t).
    rewrite cut_v_app by exact Hv.
    exact (eq_sym (cut_v_app [] (c_str t) eq_refl)). }
  split.
  - unfold Version.convert_version. rewrite Hcut. reflexivity.
  - unfold Version.convert_version. rewrite Hcut. reflexivity.
Qed.

Lemma convert_version_ignores_text_before_v_witness :
  Version.convert_version arm_eabi (lit "fw-rev1.2")
  = Version.convert_version arm_eabi (lit "v1.2")
  /\ Version.convert_version arm_eabi (lit "1.0-dev")
     = Version.Returned (-1) (Version.mkLocals Version.rev_zero false).
Proof.
  split.
  - exact (proj1 (convert_version_ignores_text_before_v arm_eabi
                    (lit "fw-re") (lit "1.2") eq_refl)).
  - exact (proj2 (convert_version_ignores_text_before_v arm_eabi
                    (lit "1.0-de") [] eq_refl)).
Defined.

(** ** getActiveSoftwareVersionInfo *)

Section ActiveSoftware.

Import Software.

Lemma existsb_false_In {A : Type} (f : A -> bool) (l : list A) (x : A) :
  existsb f l = false -> In x l -> f x = false.
Proof.
  induction l as [|y l IH]; intros H []; cbn [existsb] in H;
    apply orb_false_iff in H; destruct H as [H1 H2].
  - subst y. exact H1.
  - apply IH; assumption.
Qed.

Lemma scan_objects_spec (objs : list managed_object) :
  forall (m : Z) (f : bool) (r : str),
    (existsb (selectable m) objs = false
     /\ scan_objects objs m f r = (m, f, r))
    \/ (existsb (selectable m) objs = true
        /\ exists o,
             scan_objects objs m f r = (priority o, true, version o)
             /\ In (Some o) objs /\ qualifies o = true /\ priority o < m
             /\ forall o', In (Some o') objs -> qualifies o' = true ->
                           priority o <= priority o').
Proof.
  induction objs as [|x objs IH]; intros m f r.
  - left. split; reflexivity.
  - destruct x as [o|].
    + cbn [scan_objects existsb selectable]. fold (qualifies o).
      destruct (qualifies o) eqn:Hq; cbn [andb].
      * destruct (Z.ltb_spec (priority o) m) as [Hlt|Hge]; cbn [orb].
        -- right. split; [reflexivity|].
           destruct (IH (priority o) true (version o))
             as [[Hnone Hscan] | (_ & o1 & Hscan & Hin & Hq1 & Hlt1 & Hmin)].
           ++ exists o. split; [exact Hscan|].
              split; [left; reflexivity|]. split; [exact Hq|].
              split; [exact Hlt|].
              intros o' [E|Hin'] Hq'.
              ** inversion E. lia.
              ** pose proof (existsb_false_In _ _ _ Hnone Hin') as Hn.
                 cbn [selectable] in Hn. rewrite Hq' in Hn. cbn [andb] in Hn.
                 apply Z.ltb_ge in Hn. exact Hn.
           ++ exists o1. split; [exact Hscan|].
              split; [right; exact Hin|]. split; [exact Hq1|].
              split; [lia|].
              intros o' [E|Hin'] Hq'.
              ** inversion E. subst o'. lia.
              ** apply Hmin; assumption.
        -- destruct (IH m f r)
             as [[Hnone Hscan] | (Hsome & o1 & Hscan & Hin & Hq1 & Hlt1 & Hmin)].
           ++ left. split; assumption.
           ++ right. split; [exact Hsome|]. exists o1.
              split; [exact Hscan|]. split; [right; exact Hin|].
              split; [exact Hq1|]. split; [exact Hlt1|].
              intros o' [E|Hin'] Hq'.
              ** inversion E. subst o'. lia.
              ** apply Hmin; assumption.
      * cbn [orb].
        destruct (IH m f r)
          as [[Hnone Hscan] | (Hsome & o1 & Hscan & Hin & Hq1 & Hlt1 & Hmin)].
        -- left. split; assumption.
        -- right. split; [exact Hsome|]. exists o1.
           split; [exact Hscan|]. split; [right; exact Hin|].
           split; [exact Hq1|]. split; [exact Hlt1|].
           intros o' [E|Hin'] Hq'.
           ++ inversion E. subst o'. rewrite Hq in Hq'. discriminate Hq'.
           ++ apply Hmin; assumption.
    + cbn [scan_objects existsb selectable orb].
      destruct (IH m f r)
        as [[Hnone Hscan] | (Hsome & o1 & Hscan & Hin & Hq1 & Hlt1 & Hmin)].
      * left. split; assumption.
      * right. split; [exact Hsome|]. exists o1.
        split; [exact Hscan|]. split; [right; exact Hin|].
        split; [exact Hq1|]. split; [exact Hlt1|].
        intros o' [E|Hin'] Hq'; [discriminate E | apply Hmin; assumption].
Qed.

(** One turn of the outer loop. *)
Lemma scan_service (objs : list managed_object) (f : bool) (r : str) :
  (existsb eligible objs = false
   /\ scan_tree [Some objs] f r = Some (f, r))
  \/ (existsb eligible objs = true
      /\ exists o,
           scan_tree [Some objs] f r = Some (true, version o)
           /\ In (Some o) objs /\ qualifies o = true /\ priority o < 0xFF
           /\ forall o', In (Some o') objs -> qualifies o' = true ->
                         priority o <= priority o').
Proof.
  cbn [scan_tree]. change eligible with (selectable 0xFF).
  destruct (scan_objects_spec objs 0xFF f r)
    as [[Hnone Hscan] | (Hsome & o & Hscan & Hrest)].
  - left. rewrite Hscan. split; [exact Hnone | reflexivity].
  - right. rewrite Hscan. split; [exact Hsome|].
    exists o. split; [reflexivity | exact Hrest].
Qed.

Lemma scan_tree_app (t1 t2 : list soft_object) (f : bool) (r : str) :
  scan_tree (t1 ++ t2) f r
  = match scan_tree t1 f r with
    | Some (f1, r1) => scan_tree t2 f1 r1
    | None => None
    end.
Proof.
  revert f r. induction t1 as [|x t1 IH]; intros f r; [reflexivity|].
  destruct x as [objs|]; [|reflexivity].
  cbn [app scan_tree].
  destruct (scan_objects objs 255 f r) as [[m f1] r1]. apply IH.
Qed.

(** Whether the outer loop ends with [objectFound] set. *)
Lemma scan_tree_found (tree : list soft_object) :
  forall (f : bool) (r : str),
    match scan_tree tree f r with
    | None => existsb (fun s => match s with None => true | Some _ => false end)
                tree = true
    | Some (f', _) =>
        forallb (fun s => match s with None => false | Some _ => true end) tree
        = true
        /\ f' = f || existsb (fun s => match s with
                                       | Some objs => existsb eligible objs
                                       | None => false
                                       end) tree
    end.
Proof.
  induction tree as [|x tree IH]; intros f r.
  - cbn. split; [reflexivity | rewrite orb_false_r; reflexivity].
  - destruct x as [objs|]; [|reflexivity].
    change (Some objs :: tree) with ([Some objs] ++ tree).
    rewrite scan_tree_app.
    destruct (scan_service objs f r) as [[Hn Hs] | (Hy & o & Hs & _)];
      rewrite Hs; cbn [app existsb forallb andb].
    + specialize (IH f r). destruct (scan_tree tree f r) as [[f' r']|].
      * rewrite Hn. exact IH.
      * exact IH.
    + specialize (IH true (version o)).
      destruct (scan_tree tree true (version o)) as [[f' r']|].
      * rewrite Hy. destruct IH as [H1 H2]. split; [exact H1|].
        rewrite H2. cbn. rewrite orb_true_r. reflexivity.
      * exact IH.
Qed.

End ActiveSoftware.

(** X7. With a single service, the version that
    [getActiveSoftwareVersionInfo] returns is the [Version] property of
    an object of that service whose purpose is BMC, whose activation is
    Active, whose priority is below 0xFF, and no qualifying object of
    the service has a smaller priority number. *)
Theorem active_version_has_least_priority :
  forall (objs : list Software.managed_object) (v : str),
    Software.getActiveSoftwareVersionInfo (Some [Some objs])
    = Software.Revision v ->
    exists o : Software.sw_props,
      In (Some o) objs
      /\ Software.is_bmc o = true /\ Software.is_active o = true
      /\ Software.priority o < 0xFF
      /\ Software.version o = v
      /\ forall o', In (Some o') objs -> Software.qualifies o' = true ->
                    Software.priority o <= Software.priority o'.
Proof.
  intros objs v. unfold Software.getActiveSoftwareVersionInfo.
  destruct (scan_service objs false []) as [[_ Hs] | (_ & o & Hs & Hin & Hq & Hlt & Hmin)];
    rewrite Hs; cbn [negb]; [discriminate|].
  intros H. inversion H. subst v.
  exists o. unfold Software.qualifies in Hq. apply andb_true_iff in Hq.
  destruct Hq as [Hb Ha].
  repeat split; assumption.
Qed.

Lemma active_version_has_least_priority_witness :
  exists o : Software.sw_props,
    In (Some o) Sample.service_objects
    /\ Software.is_bmc o = true /\ Software.is_active o = true
    /\ Software.priority o < 0xFF
    /\ Software.version o = lit "v2.4"
    /\ forall o',
         In (Some o') Sample.service_objects ->
         Software.qualifies o' = true ->
         Software.priority o <= Software.priority o'.
Proof.
  exact (active_version_has_least_priority Sample.service_objects
           (lit "v2.4") eq_refl).
Defined.

(** X8. [getActiveSoftwareVersionInfo] ends in its own
    [InternalFailure] exactly when every bus call answers and no
    service holds an object that is BMC, Active and of priority below
    0xFF: an empty tree, objects whose properties cannot be read, and a
    qualifying object of priority 0xFF all count as nothing found. *)
Theorem active_version_not_found :
  forall tree : list Software.soft_object,
    Software.getActiveSoftwareVersionInfo (Some tree) = Software.InternalFailure
    <-> forallb (fun s => match s with
                          | Some objs => negb (existsb Software.eligible objs)
                          | None => false
                          end) tree = true.
Proof.
  intros tree. unfold Software.getActiveSoftwareVersionInfo.
  destruct tree as [|x tree]; [split; reflexivity|].
  pose proof (scan_tree_found (x :: tree) false []) as H.
  set (t := x :: tree) in *. clearbody t.
  destruct (Software.scan_tree t false []) as [[f r]|].
  - destruct H as [Hsome Hf]. cbn [orb] in Hf.
    assert (E : forallb (fun s => match s with
                                  | Some objs => negb (existsb Software.eligible objs)
                                  | None => false
                                  end) t = negb f).
    { rewrite Hf. clear Hf. induction t as [|y t IH]; [reflexivity|].
      cbn [forallb existsb] in *. destruct y as [objs|]; [|discriminate Hsome].
      rewrite IH by exact Hsome. rewrite negb_orb. reflexivity. }
    rewrite E. destruct f; cbn [negb]; split; intros H0;
      try reflexivity; discriminate H0.
  - split; [discriminate|].
    intros Hall. exfalso.
    induction t as [|y t IH]; [discriminate H|].
    cbn [forallb existsb] in *. destruct y as [objs|]; [|discriminate Hall].
    apply andb_true_iff in Hall. apply IH; [exact H | apply Hall].
Qed.

Section ServiceOrder.

Import Software.

(** When a service holds an eligible object, what its turn of the outer
    loop leaves does not depend on what was found before. *)
Lemma scan_service_overrides (objs : list managed_object) (f : bool) (r : str) :
  existsb eligible objs = true ->
  scan_tree [Some objs] f r = scan_tree [Some objs] false [].
Proof.
  intros He.
  destruct (scan_service objs f r) as [[Hn _] | (_ & o & Hs & _ & _ & _ & _)];
    [rewrite Hn in He; discriminate He|].
  destruct (scan_service objs false []) as [[Hn _] | (_ & o2 & Hs2 & _)];
    [rewrite Hn in He; discriminate He|].
  (* both turns run the same scan from 0xFF *)
  revert Hs Hs2. cbn [scan_tree].
  assert (Hind : forall l m f1 r1 f2 r2,
            existsb (selectable m) l = true ->
            scan_objects l m f1 r1 = scan_objects l m f2 r2).
  { induction l as [|x l IH]; intros m f1 r1 f2 r2 Hex; [discriminate Hex|].
    cbn [existsb] in Hex. destruct x as [p|].
    - cbn [scan_objects selectable] in *. fold (qualifies p) in *.
      destruct (qualifies p); cbn [andb] in *.
      + destruct (priority p <? m); [reflexivity | apply IH; exact Hex].
      + apply IH. exact Hex.
    - cbn [scan_objects]. apply IH. exact Hex. }
  rewrite (Hind objs 255 f r false [] He). intros _ _. reflexivity.
Qed.

End ServiceOrder.

(** X9. Priorities are compared inside one service only: when every
    bus call answers and the last service of the object tree holds an
    eligible object, [getActiveSoftwareVersionInfo] returns what it
    returns for that service alone, whatever the earlier services
    hold. *)
Theorem active_version_last_service_wins :
  forall (tree : list Software.soft_object)
         (objs : list Software.managed_object),
    forallb (fun s => match s with Some _ => true | None => false end) tree
    = true ->
    existsb Software.eligible objs = true ->
    Software.getActiveSoftwareVersionInfo (Some (tree ++ [Some objs]))
    = Software.getActiveSoftwareVersionInfo (Some [Some objs]).
Proof.
  intros tree objs Hsome He.
  unfold Software.getActiveSoftwareVersionInfo.
  assert (Hne : tree ++ [Some objs] <> []) by (destruct tree; discriminate).
  destruct (tree ++ [Some objs]) as [|x t] eqn:Ht; [contradiction|].
  rewrite <- Ht. clear Ht Hne x t.
  rewrite scan_tree_app.
  pose proof (scan_tree_found tree false []) as Hf.
  destruct (Software.scan_tree tree false []) as [[f r]|].
  - rewrite (scan_service_overrides objs f r He). reflexivity.
  - exfalso. clear -Hsome Hf.
    induction tree as [|y tree IH]; [discriminate Hf|].
    cbn [forallb existsb] in *. destruct y; [|discriminate Hsome].
    apply IH; assumption.
Qed.

Lemma active_version_last_service_wins_witness :
  Software.getActiveSoftwareVersionInfo
    (Some ([Some Sample.service_objects] ++ [Some Sample.other_service_objects]))
  = Software.Revision (lit "v1.0").
Proof.
  exact (eq_trans
           (active_version_last_service_wins [Some Sample.service_objects]
              Sample.other_service_objects eq_refl eq_refl)
           eq_refl).
Defined.

(** ** The bytes of the Device ID record *)

Section RecordBytes.

Import Words.

Variable a : abi.

Lemma to_u8_byte (v : Z) : is_byte (CInt.to_u8 v).
Proof. unfold is_byte, CInt.to_u8. apply Z.mod_pos_bound. lia. Qed.

Ltac bytes :=
  repeat (apply Forall_cons;
          [ first [ assumption | (unfold is_byte; lia) | apply to_u8_byte ] | ]);
  try apply Forall_nil.

Lemma be32_bytes_ok (v : Z) : Forall is_byte (CInt.be32_bytes v).
Proof. unfold CInt.be32_bytes. bytes. Qed.

Lemma aux_ok_set3 (r r' : Version.rev_t) (v : Z) :
  Forall is_byte (Version.aux r) ->
  firstn 3 (Version.aux r') = firstn 3 (Version.aux r) ->
  Version.aux3 r' = CInt.to_u8 v ->
  Forall is_byte (Version.aux r').
Proof.
  unfold Version.aux. cbn [firstn]. intros Hok Hf H3.
  inversion Hf as [[E0 E1 E2]]. rewrite E0, E1, E2, H3.
  inversion Hok as [|? ? B0 Hok1]. inversion Hok1 as [|? ? B1 Hok2].
  inversion Hok2 as [|? ? B2 _].
  bytes.
Qed.

Lemma parse_minor_bytes (tokens : list str) (l l' : Version.locals) (u : unit) :
  Forall is_byte (Version.aux (Version.rev l)) ->
  Version.parse_minor a tokens l = Version.Val u l' ->
  Forall is_byte (Version.aux (Version.rev l')).
Proof.
  intros Hok. unfold Version.parse_minor.
  destruct (Nat.ltb Version.TOKEN_MINOR (Version.size tokens)).
  - unfold Version.bind at 1 2, Version.call_stoi.
    destruct (stoi _ _) as [v|e]; [|intros H; discriminate H].
    cbn [Version.set_minor Version.upd_rev].
    set (l1 := Version.mkLocals _ (Version.has_release l)).
    assert (Hok1 : Forall is_byte (Version.aux (Version.rev l1))) by exact Hok.
    clearbody l1. unfold Version.bind.
    destruct (Version.parse_release _ l1) as [u1 l2|e1 l2] eqn:Hrel;
      [|intros H; discriminate H].
    intros Hpatch.
    assert (Hok2 : Forall is_byte (Version.aux (Version.rev l2))).
    { destruct (parse_release_spec _ _ _ _ Hrel)
        as [[_ ->] | (_ & _ & rel & _ & Haux)]; [exact Hok1|].
      rewrite Haux. apply be32_bytes_ok. }
    destruct (parse_patch_spec _ _ _ _ Hpatch)
      as [[_ ->] | (_ & _ & H3 & pl & _ & Hb)]; [exact Hok2|].
    exact (aux_ok_set3 _ _ _ Hok2 H3 Hb).
  - intros H. inversion H. subst l'. exact Hok.
Qed.

Lemma parse_hash_bytes (tokens : list str) (l l' : Version.locals) (u : unit) :
  Forall is_byte (Version.aux (Version.rev l)) ->
  Version.parse_hash tokens l = Version.Val u l' ->
  Forall is_byte (Version.aux (Version.rev l')).
Proof.
  intros Hok.
  unfold Version.parse_hash, Version.bind, Version.get_has_release.
  destruct (negb (Version.has_release l)
            && Nat.ltb Version.TOKEN_HASH (Version.size tokens)).
  - unfold Version.call_stoi.
    destruct (stoi _ _) as [h|e]; intros H; [|discriminate H].
    inversion H. apply be32_bytes_ok.
  - intros H. inversion H. subst l'. exact Hok.
Qed.

(** What [convert_version] returns with 0 has four bytes in [aux]. *)
Lemma convert_version_bytes (p : str) (l : Version.locals) :
  Version.convert_version a p = Version.Returned 0 l ->
  Forall is_byte (Version.aux (Version.rev l)).
Proof.
  intros H.
  destruct (convert_version_steps a p l H) as (l1 & l2 & l3 & H1 & H2 & H3 & H4).
  destruct (parse_major_frame a _ _ _ _ H1) as (_ & Ha1 & _).
  assert (Hok1 : Forall is_byte (Version.aux (Version.rev l1))).
  { rewrite Ha1. change (Forall is_byte [0; 0; 0; 0]). bytes. }
  pose proof (parse_minor_bytes _ _ _ _ Hok1 H2) as Hok2.
  pose proof (parse_hash_bytes _ _ _ _ Hok2 H3) as Hok3.
  destruct (mark_dirty_spec (contains (lit "dirty") (Version.cut_v (c_str p))) l3)
    as (l4 & H4' & _ & _ & _ & Ha4 & Hb).
  rewrite H4 in H4'. inversion H4'. subst l4.
  exact (aux_ok_set3 _ _ _ Hok3 Ha4 Hb).
Qed.

Lemma try_version_bytes (w : DeviceId.world) :
  0 <= fst (DeviceId.try_version a w) ->
  Forall is_byte (Version.aux (snd (DeviceId.try_version a w))).
Proof.
  unfold DeviceId.try_version.
  destruct (DeviceId.active_version w) as [version|]; [|cbn; lia].
  destruct (Version.convert_version a version) as [rc l|e l] eqn:Hcv;
    [|cbn; lia].
  cbn [fst snd]. intros Hr.
  destruct (convert_version_returns a _ _ _ Hcv) as [->|[-> _]]; [|lia].
  apply (convert_version_bytes version). exact Hcv.
Qed.

Lemma masked_byte (x : Z) : is_byte (DeviceId.masked x).
Proof. apply to_u8_byte. Qed.

Lemma patched_byte (ready : bool) (x : Z) : is_byte (DeviceId.patched ready x).
Proof. unfold DeviceId.patched. destruct ready; apply to_u8_byte. Qed.

Lemma well_formed_init : well_formed (DeviceId.dev_id DeviceId.statics_init).
Proof.
  unfold well_formed. cbn.
  repeat split; bytes.
Qed.

Lemma well_formed_set_fw0 (v : Z) (d : DeviceId.ipmi_device_id_t) :
  is_byte v -> well_formed d -> well_formed (DeviceId.set_fw0 v d).
Proof.
  unfold well_formed, DeviceId.set_fw0. cbn.
  intros Hv (H6 & Hm & Hp & Ha).
  inversion H6 as [|? ? B0 T0]. inversion T0 as [|? ? B1 T1].
  inversion T1 as [|? ? B2 T2]. inversion T2 as [|? ? B3 T3].
  inversion T3 as [|? ? B4 T4]. inversion T4 as [|? ? B5 T5].
  split; [bytes | split; [exact Hm | split; [exact Hp | exact Ha]]].
Qed.

Lemma well_formed_initialize (w : DeviceId.world) (st : DeviceId.statics) :
  well_formed (DeviceId.dev_id st) ->
  (DeviceId.dev_id_initialized st = true ->
   DeviceId.ipmi_ver (DeviceId.dev_id st) = 2) ->
  well_formed (DeviceId.dev_id (fst (DeviceId.initialize a w st)))
  /\ DeviceId.ipmi_ver (DeviceId.dev_id (fst (DeviceId.initialize a w st))) = 2.
Proof.
  intros Hwf Hver. unfold DeviceId.initialize.
  destruct (DeviceId.dev_id_initialized st) eqn:Hinit.
  - split; [exact Hwf | apply Hver; reflexivity].
  - pose proof (try_version_bytes w) as Hb.
    destruct (DeviceId.try_version a w) as [r rv]. cbn [fst snd] in Hb.
    set (d0 := DeviceId.dev_id st) in *.
    assert (Hwf1 : well_formed
                     (DeviceId.set_ipmi_ver (DeviceId.store_revision r rv d0))).
    { destruct Hwf as (H6 & Hm & Hp & Ha).
      inversion H6 as [|? ? B0 T0]. inversion T0 as [|? ? B1 T1].
      inversion T1 as [|? ? B2 T2]. inversion T2 as [|? ? B3 T3].
      inversion T3 as [|? ? B4 T4]. inversion T4 as [|? ? B5 T5].
      unfold DeviceId.store_revision.
      destruct (Z.leb_spec 0 r) as [Hr|Hr].
      - unfold well_formed. cbn.
        split; [|split; [exact Hm | split; [exact Hp | split; [reflexivity|]]]].
        + pose proof (masked_byte (Version.major rv)).
          pose proof (to_u8_byte
                        (Z.rem (DeviceId.clamp_minor (Version.minor rv)) 10
                         + Z.quot (DeviceId.clamp_minor (Version.minor rv)) 10
                           * 16)).
          unfold DeviceId.pack_bcd. bytes.
        + apply Hb. exact Hr.
      - unfold well_formed. cbn.
        split; [|split; [exact Hm | split; [exact Hp | exact Ha]]].
        bytes. }
    destruct (DeviceId.json_file w) as [| |data]; cbn [fst DeviceId.dev_id].
    + split; [exact Hwf1 | reflexivity].
    + split; [exact Hwf1 | reflexivity].
    + split; [|reflexivity].
      destruct Hwf1 as (H6 & Hm & Hp & Ha).
      inversion H6 as [|? ? B0 T0]. inversion T0 as [|? ? B1 T1].
      inversion T1 as [|? ? B2 T2]. inversion T2 as [|? ? B3 T3].
      inversion T3 as [|? ? B4 T4].
      unfold well_formed, DeviceId.store_json. cbn.
      split; [|split; [|split]].
      * bytes.
      * split; [reflexivity | bytes].
      * split; [reflexivity | bytes].
      * destruct (CInt.to_u32 (DeviceId.j_aux data) =? 0);
          [exact Ha | split; [reflexivity | apply be32_bytes_ok]].
Qed.

(** One call keeps the record well formed and leaves protocol version 2
    in it. *)
Lemma well_formed_call (w : DeviceId.world) (st : DeviceId.statics) :
  well_formed (DeviceId.dev_id st) ->
  (DeviceId.dev_id_initialized st = true ->
   DeviceId.ipmi_ver (DeviceId.dev_id st) = 2) ->
  well_formed (DeviceId.dev_id (fst (DeviceId.ipmi_app_get_device_id a w st)))
  /\ DeviceId.ipmi_ver
       (DeviceId.dev_id (fst (DeviceId.ipmi_app_get_device_id a w st))) = 2.
Proof.
  intros Hwf Hver.
  destruct (well_formed_initialize w st Hwf Hver) as [Hwf1 Hv1].
  unfold DeviceId.ipmi_app_get_device_id.
  destruct (DeviceId.initialize a w st) as [st1 rc]. cbn [fst] in Hwf1, Hv1.
  assert (Hc : well_formed (DeviceId.clear_state_bit (DeviceId.dev_id st1)))
    by (apply well_formed_set_fw0; [apply masked_byte | exact Hwf1]).
  destruct (DeviceId.bmc_ready w) as [ready|]; cbn [fst DeviceId.dev_id].
  - destruct ready; cbn [negb].
    + split; [exact Hc | exact Hv1].
    + split; [|exact Hv1].
      apply well_formed_set_fw0; [apply to_u8_byte | exact Hc].
  - split; [exact Hc | exact Hv1].
Qed.

Lemma well_formed_calls (ws : list DeviceId.world) (st : DeviceId.statics) :
  well_formed (DeviceId.dev_id st) ->
  (DeviceId.dev_id_initialized st = true ->
   DeviceId.ipmi_ver (DeviceId.dev_id st) = 2) ->
  well_formed (DeviceId.dev_id (DeviceId.calls a ws st))
  /\ (DeviceId.dev_id_initialized (DeviceId.calls a ws st) = true ->
      DeviceId.ipmi_ver (DeviceId.dev_id (DeviceId.calls a ws st)) = 2).
Proof.
  revert st. induction ws as [|w ws IH]; intros st Hwf Hver.
  - split; assumption.
  - cbn [DeviceId.calls].
    destruct (well_formed_call w st Hwf Hver) as [H1 H2].
    apply IH; [exact H1 | intros _; exact H2].
Qed.

Lemma well_formed_wire (d : DeviceId.ipmi_device_id_t) :
  well_formed d ->
  List.length (DeviceId.wire d) = 15%nat /\ Forall is_byte (DeviceId.wire d).
Proof.
  intros (H6 & [Lm Hm] & [Lp Hp] & [La Ha]). unfold DeviceId.wire. split.
  - rewrite !length_app, Lm, Lp, La. reflexivity.
  - apply Forall_app. split; [exact H6|].
    apply Forall_app. split; [exact Hm|].
    apply Forall_app. split; assumption.
Qed.

End RecordBytes.

(** X10. After any sequence of calls on a fresh process, a call whose
    state source answers sends the record it leaves in the statics:
    15 bytes, each in 0..255, with the protocol version 2 at offset 4
    -- also when the version and the configuration could not be read. *)
Theorem device_id_reply_is_well_formed :
  forall (a : abi) (before : list DeviceId.world) (ver : option str)
         (cfg : DeviceId.dev_id_file) (ready : bool),
    exists (rc : ipmi_ret_t) (d : DeviceId.ipmi_device_id_t),
      DeviceId.ipmi_app_get_device_id a
        (DeviceId.mkWorld ver cfg (Some ready))
        (DeviceId.calls a before DeviceId.statics_init)
      = (DeviceId.mkStatics d
           (DeviceId.dev_id_initialized
              (fst (DeviceId.ipmi_app_get_device_id a
                      (DeviceId.mkWorld ver cfg (Some ready))
                      (DeviceId.calls a before DeviceId.statics_init)))),
         DeviceId.Responds rc d)
      /\ List.length (DeviceId.wire d) = 15%nat
      /\ Forall Words.is_byte (DeviceId.wire d)
      /\ nth 4 (DeviceId.wire d) 0 = 2.
Proof.
  intros a before ver cfg ready.
  set (st := DeviceId.calls a before DeviceId.statics_init).
  destruct (well_formed_calls a before DeviceId.statics_init
              well_formed_init (fun H => match Bool.diff_false_true H with end))
    as [Hwf Hver].
  fold st in Hwf, Hver.
  destruct (well_formed_call a (DeviceId.mkWorld ver cfg (Some ready)) st Hwf Hver)
    as [Hwf' Hver'].
  rewrite get_device_id_answer in *. cbv zeta in *. cbn [fst snd] in *.
  cbn [DeviceId.dev_id DeviceId.dev_id_initialized] in *.
  eexists. eexists. split; [reflexivity|].
  destruct (well_formed_wire _ Hwf') as [Hlen Hbytes].
  split; [exact Hlen|]. split; [exact Hbytes|].
  exact Hver'.
Qed.

(** X11. A call whose state source answers sends the record it keeps
    in the statics whatever the completion code: the code is
    IPMI_CC_OK exactly when [dev_id_initialized] is set after the call,
    and IPMI_CC_UNSPECIFIED_ERROR otherwise, that is on every call
    that finds the flag clear and cannot read the JSON file. *)
Theorem device_id_completion_code :
  forall (a : abi) (st : DeviceId.statics) (ver : option str)
         (cfg : DeviceId.dev_id_file) (ready : bool),
    snd (DeviceId.ipmi_app_get_device_id a
           (DeviceId.mkWorld ver cfg (Some ready)) st)
    = DeviceId.Responds
        (if DeviceId.dev_id_initialized
              (fst (DeviceId.ipmi_app_get_device_id a
                      (DeviceId.mkWorld ver cfg (Some ready)) st))
         then IPMI_CC_OK else IPMI_CC_UNSPECIFIED_ERROR)
        (DeviceId.dev_id
           (fst (DeviceId.ipmi_app_get_device_id a
                   (DeviceId.mkWorld ver cfg (Some ready)) st)))
    /\ DeviceId.dev_id_initialized
         (fst (DeviceId.ipmi_app_get_device_id a
                 (DeviceId.mkWorld ver cfg (Some ready)) st))
       = DeviceId.dev_id_initialized st
         || match cfg with DeviceId.Parsed _ => true | _ => false end.
Proof.
  intros a st ver cfg ready.
  rewrite get_device_id_answer. cbv zeta. cbn [fst snd].
  cbn [DeviceId.dev_id DeviceId.dev_id_initialized].
  unfold DeviceId.initialize.
  destruct (DeviceId.dev_id_initialized st) eqn:Hinit.
  - cbn [fst snd]. rewrite Hinit. split; reflexivity.
  - destruct (DeviceId.try_version a _) as [r rv].
    cbn [DeviceId.json_file].
    destruct cfg as [| |data]; cbn [fst snd DeviceId.dev_id_initialized];
      split; reflexivity.
Qed.

Section ConfigFields.

Import Words.

Lemma of_le_three (m : Z) :
  of_le [CInt.to_u8 m; CInt.to_u8 (Z.shiftr m 8); CInt.to_u8 (Z.shiftr m 16)]
  = m mod 2 ^ 24.
Proof.
  unfold of_le, CInt.to_u8. rewrite !Z.shiftr_div_pow2 by lia.
  change (2 ^ 8) with 256. change (2 ^ 16) with 65536.
  change (2 ^ 24) with 16777216.
  Z.div_mod_to_equations. lia.
Qed.

Lemma of_le_two (m : Z) :
  of_le [CInt.to_u8 m; CInt.to_u8 (Z.shiftr m 8)] = m mod 2 ^ 16.
Proof.
  unfold of_le, CInt.to_u8. rewrite !Z.shiftr_div_pow2 by lia.
  change (2 ^ 8) with 256. change (2 ^ 16) with 65536.
  Z.div_mod_to_equations. lia.
Qed.

Lemma of_be_four (m : Z) :
  of_be (CInt.be32_bytes (CInt.to_u32 m)) = m mod 2 ^ 32.
Proof.
  unfold of_be, CInt.be32_bytes, CInt.to_u32, CInt.to_u8.
  cbn [List.rev app of_le].
  rewrite !Z.shiftr_div_pow2 by lia.
  change (2 ^ 8) with 256. change (2 ^ 16) with 65536.
  change (2 ^ 24) with 16777216. change (2 ^ 32) with 4294967296.
  Z.div_mod_to_equations. lia.
Qed.

End ConfigFields.

(** X12. A call that finds the flag clear and reads the JSON file
    answers IPMI_CC_OK with the file's values: id, revision and
    additional device support modulo 256, the manufacturer id as three
    little-endian bytes (modulo 2^24), the product id as two (modulo
    2^16). A non-zero "aux" (modulo 2^32) replaces the four aux bytes,
    most significant first; a zero one leaves those of the parsed
    version. *)
Theorem device_id_config_fields :
  forall (a : abi) (d0 : DeviceId.ipmi_device_id_t) (ver : option str)
         (data : DeviceId.dev_id_json) (ready : bool),
    exists d : DeviceId.ipmi_device_id_t,
      snd (DeviceId.ipmi_app_get_device_id a
             (DeviceId.mkWorld ver (DeviceId.Parsed data) (Some ready))
             (DeviceId.mkStatics d0 false))
      = DeviceId.Responds IPMI_CC_OK d
      /\ DeviceId.id d = DeviceId.j_id data mod 256
      /\ DeviceId.revision d = DeviceId.j_revision data mod 256
      /\ DeviceId.addn_dev_support d = DeviceId.j_addn_dev_support data mod 256
      /\ Words.of_le (DeviceId.manuf_id d) = DeviceId.j_manuf_id data mod 2 ^ 24
      /\ Words.of_le (DeviceId.prod_id d) = DeviceId.j_prod_id data mod 2 ^ 16
      /\ (if DeviceId.j_aux data mod 2 ^ 32 =? 0
          then DeviceId.aux d
               = DeviceId.aux
                   (DeviceId.store_revision
                      (fst (DeviceId.try_version a
                              (DeviceId.mkWorld ver (DeviceId.Parsed data)
                                 (Some ready))))
                      (snd (DeviceId.try_version a
                              (DeviceId.mkWorld ver (DeviceId.Parsed data)
                                 (Some ready))))
                      d0)
          else Words.of_be (DeviceId.aux d) = DeviceId.j_aux data mod 2 ^ 32).
Proof.
  intros a d0 ver data ready.
  rewrite get_device_id_answer. cbv zeta.
  unfold DeviceId.initialize.
  cbn [DeviceId.dev_id_initialized DeviceId.json_file DeviceId.dev_id].
  destruct (DeviceId.try_version a _) as [r rv].
  cbn [fst snd DeviceId.dev_id].
  eexists. split; [reflexivity|].
  cbn [DeviceId.set_fw0 DeviceId.store_json DeviceId.id DeviceId.revision
       DeviceId.addn_dev_support DeviceId.manuf_id DeviceId.prod_id
       DeviceId.aux].
  split; [reflexivity|]. split; [reflexivity|]. split; [reflexivity|].
  split; [apply of_le_three|]. split; [apply of_le_two|].
  change (DeviceId.j_aux data mod 2 ^ 32)
    with (CInt.to_u32 (DeviceId.j_aux data)).
  destruct (CInt.to_u32 (DeviceId.j_aux data) =? 0).
  - reflexivity.
  - apply of_be_four.
Qed.

Section MinorDigits.

(** The version lookup and parse do not depend on the other sources. *)
Lemma try_version_of_text (a : abi) (ver : option str)
    (cfg : DeviceId.dev_id_file) (ready : option bool) :
  DeviceId.try_version a (DeviceId.mkWorld ver cfg ready)
  = DeviceId.try_version a (DeviceId.mkWorld ver DeviceId.NotOpen None).
Proof. reflexivity. Qed.

(** Firmware byte 1 of the first reply of a process. *)
Lemma first_reply_fw1 (a : abi) (d0 : DeviceId.ipmi_device_id_t)
    (ver : option str) (cfg : DeviceId.dev_id_file) (ready : bool) :
  exists (rc : ipmi_ret_t) (d : DeviceId.ipmi_device_id_t),
    snd (DeviceId.ipmi_app_get_device_id a
           (DeviceId.mkWorld ver cfg (Some ready)) (DeviceId.mkStatics d0 false))
    = DeviceId.Responds rc d
    /\ DeviceId.fw1 d
       = DeviceId.fw1
           (DeviceId.store_revision
              (fst (DeviceId.try_version a
                      (DeviceId.mkWorld ver DeviceId.NotOpen None)))
              (snd (DeviceId.try_version a
                      (DeviceId.mkWorld ver DeviceId.NotOpen None)))
              d0).
Proof.
  rewrite get_device_id_answer. cbv zeta.
  unfold DeviceId.initialize.
  cbn [DeviceId.dev_id_initialized DeviceId.json_file DeviceId.dev_id].
  rewrite (try_version_of_text a ver cfg (Some ready)).
  destruct (DeviceId.try_version a _) as [r rv].
  destruct cfg as [| |data]; cbn [fst snd DeviceId.dev_id];
    eexists; eexists; (split; [reflexivity|]); reflexivity.
Qed.

End MinorDigits.

(** X13. The two decimal digits d1 d2 of a minor version are read in
    base 16 and then packed as if the result were decimal: on a fresh
    process (plain [char] unsigned) the reply to version "v1.<d1><d2>"
    carries in firmware byte 1 the packed form of min (16*d1 + d2, 99).
    Read back as BCD, byte 1 gives 16 for "10" and 99 for every minor
    from "64" on; only one-digit minors and "99" come back as written. *)
Theorem minor_digits_are_read_as_hex :
  forall (a : abi) (c1 c2 : ascii) (cfg : DeviceId.dev_id_file)
         (ready : bool),
    char_signed a = false ->
    In c1 Words.decimal_digits -> In c2 Words.decimal_digits ->
    exists (rc : ipmi_ret_t) (d : DeviceId.ipmi_device_id_t),
      snd (DeviceId.ipmi_app_get_device_id a
             (DeviceId.mkWorld (Some (lit "v1." ++ [c1; c2])) cfg (Some ready))
             DeviceId.statics_init)
      = DeviceId.Responds rc d
      /\ DeviceId.fw1 d
         = DeviceId.pack_bcd
             (Z.min (16 * Guid.hex_val c1 + Guid.hex_val c2) 99)
      /\ DeviceId.unpack_bcd (DeviceId.fw1 d)
         = Z.min (16 * Guid.hex_val c1 + Guid.hex_val c2) 99.
Proof.
  intros a c1 c2 cfg ready Hu H1 H2.
  destruct (first_reply_fw1 a (DeviceId.dev_id DeviceId.statics_init)
              (Some (lit "v1." ++ [c1; c2])) cfg ready)
    as (rc & d & Hreply & Hfw1).
  exists rc, d. split; [exact Hreply|].
  rewrite Hfw1. clear Hreply Hfw1.
  destruct a as [cs be lp]. cbn in Hu. subst cs.
  unfold Words.decimal_digits in H1, H2. cbn in H1, H2.
  repeat (destruct H1 as [<-|H1]; [|]); try contradiction;
    repeat (destruct H2 as [<-|H2]; [|]); try contradiction;
    split; vm_compute; reflexivity.
Qed.

Lemma minor_digits_are_read_as_hex_witness :
  exists (rc : ipmi_ret_t) (d : DeviceId.ipmi_device_id_t),
    snd (DeviceId.ipmi_app_get_device_id arm_eabi
           (DeviceId.mkWorld (Some (lit "v1.10")) DeviceId.NotOpen (Some true))
           DeviceId.statics_init)
    = DeviceId.Responds rc d
    /\ DeviceId.fw1 d = 0x16
    /\ DeviceId.unpack_bcd (DeviceId.fw1 d) = 16.
Proof.
  exact (minor_digits_are_read_as_hex arm_eabi "1" "0" DeviceId.NotOpen true
           eq_refl (or_intror (or_introl eq_refl)) (or_introl eq_refl)).
Defined.

(** ** The GUID handlers on texts that are no GUID *)

(** X14. The device handler validates neither digits nor length. A
    text without any octet string is answered with
    IPMI_CC_RESPONSE_ERROR and no data; any other text with at most
    sixteen pairs is answered with IPMI_CC_OK and 16 bytes of which
    only the last n, one per pair, were ever stored (the first 16 - n
    cells of the local array are sent as they were found); with more
    pairs the seventeenth store is at index -1. No exception leaves the
    handler. *)
Theorem device_guid_outcomes :
  forall (a : abi) (uuid : str),
    let octets := Guid.strtok_all uuid (lit "-") in
    let bytes := Guid.uuid_bytes a octets in
    Z.of_nat (List.length bytes) = Guid.pair_count octets
    /\ ((octets = []
         /\ Guid.ipmi_app_get_device_guid a (Guid.Uuid uuid)
            = Guid.Sent IPMI_CC_RESPONSE_ERROR [])
        \/ (octets <> [] /\ (List.length bytes <= 16)%nat
            /\ Guid.ipmi_app_get_device_guid a (Guid.Uuid uuid)
               = Guid.Sent IPMI_CC_OK
                   (repeat None (16 - List.length bytes)
                    ++ map Some (rev bytes)))
        \/ ((16 < List.length bytes)%nat
            /\ Guid.ipmi_app_get_device_guid a (Guid.Uuid uuid)
               = Guid.OutOfBounds (-1))).
Proof.
  intros a uuid octets bytes.
  split; [symmetry; apply pair_count_bytes|].
  destruct octets as [|o r] eqn:Ho.
  - left. split; [reflexivity|].
    unfold Guid.ipmi_app_get_device_guid. fold octets. rewrite Ho. reflexivity.
  - right.
    assert (Hne : Guid.strtok_all uuid (lit "-") <> [])
      by (fold octets; rewrite Ho; discriminate).
    rewrite (device_guid_spec a uuid Hne). fold octets. rewrite Ho.
    rewrite (pair_count_bytes a). fold bytes.
    destruct (Z.leb_spec (Z.of_nat (List.length bytes)) 16) as [Hle|Hgt].
    + left. split; [discriminate|]. split; [lia | reflexivity].
    + right. split; [lia | reflexivity].
Qed.

Section BadDigit.

Import Words.

Lemma not_hex_not_zero (c : ascii) :
  Guid.is_hex c = false -> Ascii.eqb c "0" = false.
Proof.
  intros H. destruct (Ascii.eqb_spec c "0") as [->|]; [discriminate H|].
  reflexivity.
Qed.

(** [std::stoi] in base 16 throws on a text that starts with a
    character at which [strtol] converts nothing. *)
Lemma stoi_stops (c : ascii) (r : str) :
  stops_strtol c = true -> stoi (c :: r) 16 = StoiThrow invalid_argument.
Proof.
  unfold stops_strtol. intros H.
  apply andb_true_iff in H. destruct H as [H Hm].
  apply andb_true_iff in H. destruct H as [H Hp].
  apply andb_true_iff in H. destruct H as [Hh Hs].
  apply negb_true_iff in Hm, Hp, Hs, Hh.
  unfold stoi. cbn [c_str].
  destruct (Ascii.eqb c NUL); [reflexivity|].
  unfold subject. cbn [skip_space]. rewrite Hs, Hm, Hp.
  assert (Hd : digit_in 16 c = None).
  { unfold Guid.is_hex in Hh. destruct (digit_in 16 c); [discriminate Hh|].
    reflexivity. }
  cbn [digits]. rewrite Hd.
  destruct (c_str r) as [|x r'].
  - reflexivity.
  - rewrite (not_hex_not_zero c Hh), andb_false_r. reflexivity.
Qed.

Lemma to_size_t_nonneg (a : abi) (x : Z) : 0 <= CInt.to_size_t a x.
Proof.
  unfold CInt.to_size_t, CInt.size_bits.
  destruct (lp64 a); apply Z.mod_pos_bound; lia.
Qed.

End BadDigit.

(** X15. The system handler does not catch what [std::stoi] throws.
    When the value has 32 or 33 characters without its hyphens and,
    after an even number of hexadecimal digits, a character that is
    no hexadecimal digit, no white space and no sign, the handler is
    left by [std::invalid_argument]: no completion code is returned. *)
Theorem sys_guid_throws_on_bad_digit :
  forall (a : abi) (text pre rest : str) (c : ascii),
    remove_char "-" text = pre ++ c :: rest ->
    (List.length (remove_char "-" text) = 32%nat
     \/ List.length (remove_char "-" text) = 33%nat) ->
    forallb Guid.is_hex pre = true ->
    Nat.even (List.length pre) = true ->
    Words.stops_strtol c = true ->
    Guid.ipmi_app_get_sys_guid a (Some text) = Guid.Escapes invalid_argument.
Proof.
  intros a text pre rest c Hsplit Hlen Hhex Heven Hstop.
  unfold Guid.ipmi_app_get_sys_guid.
  set (g := remove_char "-" text) in *.
  assert (Htest : (Z.of_nat (List.length g) <=? 0)
                  || negb (Z.of_nat (List.length g) / 2 =? Guid.bmc_guid_len)
                  = false).
  { destruct Hlen as [-> | ->]; reflexivity. }
  rewrite Htest.
  pose proof (byte_pairs_length pre Heven) as Hpairs.
  assert (Hm : (List.length (Guid.byte_pairs pre) <= 16)%nat).
  { assert (List.length g = (List.length pre + S (List.length rest))%nat)
      by (rewrite Hsplit, length_app; reflexivity).
    destruct Hlen; lia. }
  pose proof (sys_copy_pairs a pre Hhex Heven (c :: rest)
                (16 - List.length (Guid.byte_pairs pre)) []) as H.
  replace (List.length (Guid.byte_pairs pre)
           + (16 - List.length (Guid.byte_pairs pre)))%nat
    with 16%nat in H by lia.
  specialize (H ltac:(lia)).
  change (CInt.to_size_t a (Z.of_nat 16 - 1)) with (CInt.to_size_t a 15) in H.
  rewrite to_size_t_small in H by lia.
  change (repeat None 16 ++ []) with Guid.fresh in H.
  change (Guid.bmc_guid_len - 1) with 15.
  rewrite Hsplit, H.
  cbn [Guid.sys_copy].
  replace (0 <=? CInt.to_size_t a
                   (Z.of_nat (16 - List.length (Guid.byte_pairs pre)) - 1))
    with true
    by (symmetry; apply Z.leb_le; apply to_size_t_nonneg).
  unfold substr. cbn [skipn firstn].
  rewrite stoi_stops by exact Hstop. reflexivity.
Qed.

Lemma sys_guid_throws_on_bad_digit_witness :
  Guid.ipmi_app_get_sys_guid arm_eabi
    (Some (lit "61a39523-78f2-11e5-9862-e6402cfc32zz"))
  = Guid.Escapes invalid_argument.
Proof.
  exact (sys_guid_throws_on_bad_digit arm_eabi
           (lit "61a39523-78f2-11e5-9862-e6402cfc32zz")
           (lit "61a3952378f211e59862e6402cfc32") (lit "z") "z"
           eq_refl (or_introl eq_refl) eq_refl eq_refl eq_refl).
Defined.

(** ** The reply without a firmware version *)

(** X16. On a fresh process, when the active version cannot be looked
    up, or [convert_version] throws on it or returns -1, the reply
    reports firmware revision 0.00: firmware byte 0 is the availability
    bit alone, byte 1 is 0, and the aux bytes are zero unless the JSON
    file supplies a non-zero "aux". *)
Theorem device_id_without_version :
  forall (a : abi) (ver : option str) (cfg : DeviceId.dev_id_file)
         (ready : bool),
    (ver = None
     \/ (exists text e l,
           ver = Some text /\ Version.convert_version a text = Version.Threw e l)
     \/ (exists text l,
           ver = Some text
           /\ Version.convert_version a text = Version.Returned (-1) l)) ->
    exists (rc : ipmi_ret_t) (d : DeviceId.ipmi_device_id_t),
      snd (DeviceId.ipmi_app_get_device_id a
             (DeviceId.mkWorld ver cfg (Some ready)) DeviceId.statics_init)
      = DeviceId.Responds rc d
      /\ DeviceId.fw0 d = (if ready then 0x00 else 0x80)
      /\ DeviceId.fw1 d = 0
      /\ DeviceId.ipmi_ver d = 2
      /\ DeviceId.aux d
         = match cfg with
           | DeviceId.Parsed data =>
               if CInt.to_u32 (DeviceId.j_aux data) =? 0 then [0; 0; 0; 0]
               else CInt.be32_bytes (CInt.to_u32 (DeviceId.j_aux data))
           | _ => [0; 0; 0; 0]
           end.
Proof.
  intros a ver cfg ready Hver.
  assert (Hr : exists rv, DeviceId.try_version a
                            (DeviceId.mkWorld ver cfg (Some ready)) = (-1, rv)).
  { unfold DeviceId.try_version. cbn [DeviceId.active_version].
    destruct Hver as [-> | [(text & e & l & -> & Hcv) | (text & l & -> & Hcv)]].
    - eexists. reflexivity.
    - rewrite Hcv. eexists. reflexivity.
    - rewrite Hcv. eexists. reflexivity. }
  destruct Hr as [rv Hr].
  rewrite get_device_id_answer. cbv zeta.
  unfold DeviceId.initialize.
  change (DeviceId.dev_id_initialized DeviceId.statics_init) with false.
  cbv iota. rewrite Hr.
  cbn [DeviceId.json_file].
  unfold DeviceId.store_revision. change (0 <=? -1) with false. cbv iota.
  destruct cfg as [| |data]; cbn [fst snd DeviceId.dev_id];
    eexists; eexists; (split; [reflexivity|]);
    (split; [destruct ready; reflexivity|]);
    (split; [reflexivity|]); (split; [reflexivity|]); reflexivity.
Qed.

Lemma device_id_without_version_witness :
  exists (rc : ipmi_ret_t) (d : DeviceId.ipmi_device_id_t),
    snd (DeviceId.ipmi_app_get_device_id arm_eabi
           (DeviceId.mkWorld (Some (lit "v1.99.10-113"))
              (DeviceId.Parsed (DeviceId.mkJson 1 2 3 0x00c0de 0x0102 0))
              (Some false))
           DeviceId.statics_init)
    = DeviceId.Responds rc d
    /\ DeviceId.fw0 d = 0x80
    /\ DeviceId.fw1 d = 0
    /\ DeviceId.ipmi_ver d = 2
    /\ DeviceId.aux d = [0; 0; 0; 0].
Proof.
  exact (device_id_without_version arm_eabi (Some (lit "v1.99.10-113"))
           (DeviceId.Parsed (DeviceId.mkJson 1 2 3 0x00c0de 0x0102 0)) false
           (or_intror (or_introl
              (ex_intro _ (lit "v1.99.10-113")
                 (ex_intro _ invalid_argument
                    (ex_intro _ (Version.mkLocals (Version.mkRev 1 0x99 0 0 0 0) false)
                       (conj eq_refl eq_refl))))))).
Defined.
